(** * Zhele USB-HID descriptor assembler (include/common/usb/hid.h)

    A shallow embedding of [HidReport], [HidImpl] and the request handler
    of [HidInterface], followed by the properties of the descriptor
    assembler.  The parameter pack [_Reports...] is a list of reports, a
    pointer into the destination memory is an index into a byte buffer,
    and every fixed-width integer of the source is a [Z] whose truncation
    is written where the source converts. *)

From Stdlib Require Import ZArith Lia.
From stdpp Require Import base list.

Local Open Scope Z_scope.

(** ** Fixed-width integers of the target (STM32, 32-bit ARM, little endian) *)

Definition u8 (z : Z) : Z := z mod 2 ^ 8.
Definition u16 (z : Z) : Z := z mod 2 ^ 16.
(** [size_t] is 32 bits wide on the target. *)
Definition size_t (z : Z) : Z := z mod 2 ^ 32.
(** [int] is 32 bits wide, two's complement; [+] on the promoted operands
    of the fold in [ReportsSize] is written with its wrap-around.  The
    value of [ReportsSize] does not depend on it ([u16_int] below), since
    the sum is converted to [uint16_t]. *)
Definition int (z : Z) : Z := (z + 2 ^ 31) mod 2 ^ 32 - 2 ^ 31.

(** ** Results, errors and the destination memory *)

(** [IllFormed]: the member function cannot be instantiated for this
    pack.  [OutOfBounds]: a write through [address] outside the buffer
    the caller supplied. *)
Inductive error : Set := IllFormed | OutOfBounds.

Inductive result (A : Type) : Type :=
| Ok (a : A)
| Err (e : error).
Arguments Ok {A} a.
Arguments Err {A} e.

(** The memory a [uint8_t*] points into: one [Z] per byte. *)
Abbreviation Memory := (list Z).

Definition M (A : Type) : Type := Memory -> result (A * Memory).

Definition ret {A} (a : A) : M A := fun m => Ok (a, m).

Definition bind {A B} (c : M A) (k : A -> M B) : M B :=
  fun m => match c m with
           | Ok (a, m') => k a m'
           | Err e => Err e
           end.

Definition lift {A} (r : result A) : M A :=
  fun m => match r with
           | Ok a => Ok (a, m)
           | Err e => Err e
           end.

Declare Scope hid_scope.
Delimit Scope hid_scope with hid.
Notation "x <- c1 ;; c2" := (bind c1 (fun x => c2))
  (at level 100, c1 at next level, right associativity) : hid_scope.
Notation "c1 ;; c2" := (bind c1 (fun _ => c2))
  (at level 100, right associativity) : hid_scope.
Local Open Scope hid_scope.

(** [*address = v] *)
Definition store (address : nat) (v : Z) : M unit :=
  fun m => if decide (address < length m)%nat
           then Ok (tt, <[address := v]> m)
           else Err OutOfBounds.

(** Consecutive byte stores starting at [dst]. *)
Fixpoint write_bytes (dst : nat) (bytes : list Z) : M unit :=
  match bytes with
  | [] => ret tt
  | b :: bs => store dst b ;; write_bytes (S dst) bs
  end.

(** [memcpy(dst, src, n)] *)
Definition memcpy (dst : nat) (src : list Z) (n : Z) : M unit :=
  write_bytes dst (take (Z.to_nat n) src).

(** ** HidReport *)

(** [template<uint8_t... _Data> struct HidReport]: the raw report bytes
    [Data]. *)
Abbreviation HidReport := (list Z).

(** [sizeof(_Reports::Data)]: the number of elements of [Data].  [sizeof]
    is exact: a type whose size does not fit [size_t] is not a type. *)
Definition sizeof_Data (Data : HidReport) : Z := Z.of_nat (length Data).

(** [sizeof...(_Reports)]: the number of elements of the pack. *)
Definition sizeof_pack (_Reports : list HidReport) : Z :=
  Z.of_nat (length _Reports).

(** ** HidImpl *)

Record HidImpl : Set := {
  Length : Z;           (* uint8_t  *)
  DescriptorType : Z;   (* uint8_t  *)
  Version : Z;          (* uint16_t *)
  CountryCode : Z;      (* uint8_t  *)
  ReportsCount : Z      (* uint8_t  *)
}.

(** The default member initialisers of [HidImpl<_Version, _Reports...>]:
    the right-hand sides are computed in [size_t] and converted to the
    type of the member. *)
Definition HidImpl_init (_Version : Z) (_Reports : list HidReport) : HidImpl :=
  {| Length := u8 (size_t (0x06 + size_t (3 * sizeof_pack _Reports)));
     DescriptorType := 0x21;
     Version := u16 _Version;
     CountryCode := 0x00;
     ReportsCount := u8 (sizeof_pack _Reports) |}.

(** [sizeof(_HidImpl)]: 1 + 1 + 2 + 1 + 1 bytes, no padding. *)
Definition sizeof_HidImpl : Z := 6.

(** The object representation of a [HidImpl] on the little-endian target. *)
Definition HidImpl_bytes (h : HidImpl) : list Z :=
  [ Length h; DescriptorType h;
    Z.land (Version h) 0xff; Z.shiftr (Version h) 8;
    CountryCode h; ReportsCount h ].

(** The operands of the fold in [ReportsSize], right to left:
    [E1 + (E2 + (... + En))].  Each operand is a [uint16_t], promoted to
    [int] by [+]. *)
Fixpoint ReportsSize_fold (r : HidReport) (rest : list HidReport) : Z :=
  match rest with
  | [] => u16 (sizeof_Data r)
  | r' :: rest' => int (u16 (sizeof_Data r) + ReportsSize_fold r' rest')
  end.

(** [static constexpr uint16_t ReportsSize()]:
    [return (static_cast<uint16_t>(sizeof(_Reports::Data)) + ...);]
    A unary fold over [+] has no value for an empty pack. *)
Definition ReportsSize (_Reports : list HidReport) : result Z :=
  match _Reports with
  | [] => Err IllFormed
  | r :: rest => Ok (u16 (ReportsSize_fold r rest))
  end.

(** The comma fold of [FillReportsDescriptors]; yields the advanced
    [address]. *)
Fixpoint FillReportsDescriptors_fold (_Reports : list HidReport) (address : nat)
  : M nat :=
  match _Reports with
  | [] => ret address
  | r :: rest =>
      store address 0x22 ;;
      store (address + 1) (u8 (Z.land (u16 (sizeof_Data r)) 0xff)) ;;
      store (address + 2) (u8 (Z.land (Z.shiftr (u16 (sizeof_Data r)) 8) 0xff)) ;;
      FillReportsDescriptors_fold rest (address + 3)
  end.

(** [static uint16_t FillReportsDescriptors(uint8_t* address)] *)
Definition FillReportsDescriptors (_Reports : list HidReport) (address : nat)
  : M Z :=
  FillReportsDescriptors_fold _Reports address ;;
  ret (u16 (size_t (3 * sizeof_pack _Reports))).

(** The comma fold of [FillReports]; yields the advanced [address]. *)
Fixpoint FillReports_fold (_Reports : list HidReport) (address : nat) : M nat :=
  match _Reports with
  | [] => ret address
  | r :: rest =>
      memcpy address r (sizeof_Data r) ;;
      FillReports_fold rest (address + Z.to_nat (sizeof_Data r))
  end.

(** [static uint16_t FillReports(uint8_t* address)] *)
Definition FillReports (_Reports : list HidReport) (address : nat) : M Z :=
  FillReports_fold _Reports address ;;
  lift (ReportsSize _Reports).

(** ** HidInterface *)

(** The HID part of [HidInterface::FillDescriptor]:
    [*hidDescriptor = _HidImpl {};] then [FillReportsDescriptors] right
    behind it; the value is what this part adds to the [uint16_t
    totalLength], [sizeof(_HidImpl) + bytesWritten]. *)
Definition FillHidDescriptor (_Version : Z) (_Reports : list HidReport)
    (hidDescriptor : nat) : M Z :=
  write_bytes hidDescriptor (HidImpl_bytes (HidImpl_init _Version _Reports)) ;;
  let reportsPart := (hidDescriptor + Z.to_nat sizeof_HidImpl)%nat in
  bytesWritten <- FillReportsDescriptors _Reports reportsPart ;;
  ret (u16 (size_t (sizeof_HidImpl + bytesWritten))).

Module SetupPacket.
(** The fields of the setup packet that [SetupHandler] reads. *)
Record t : Set := {
  Request : Z;
  Value : Z;    (* uint16_t *)
  Length : Z    (* uint16_t *)
}.
End SetupPacket.

(** A call of the control endpoint's [SendData(buffer, size)]: the
    contents of the buffer at the call, and the size passed. *)
Inductive Ep0Call : Type :=
| SendData (buffer : list Z) (size : Z).

(** Modelled from the spec: [_Ep0::SendData] is not part of these
    sources; the transport sends the first [size] bytes of the buffer. *)
Definition transmitted (c : Ep0Call) : list Z :=
  match c with
  | SendData buffer size => take (Z.to_nat size) buffer
  end.

Section HidInterface.

(** Enumerators declared outside these sources. *)
Variable GetDescriptor : Z.        (* StandartRequestCode::GetDescriptor *)
Variable HidReportDescriptor : Z.  (* GetDescriptorParameter::HidReportDescriptor *)

(** The configuration of the interface: the reports of its [_HidImpl]. *)
Variable _Reports : list HidReport.

(** [static void SetupHandler()].  [stack] is the indeterminate content
    of the local array [temp] before it is filled; the value is the list
    of calls made on the control endpoint. *)
Definition SetupHandler (stack : nat -> Z) (setup : SetupPacket.t)
  : result (list Ep0Call) :=
  if (SetupPacket.Request setup =? GetDescriptor)
     && (SetupPacket.Value setup =? HidReportDescriptor)
  then
    match ReportsSize _Reports with
    | Err e => Err e
    | Ok n =>
        let temp := map stack (seq 0 (Z.to_nat n)) in
        match FillReports _Reports 0 temp with
        | Err e => Err e
        | Ok (size, temp') =>
            Ok [SendData temp'
                  (if SetupPacket.Length setup <? size
                   then SetupPacket.Length setup else size)]
        end
    end
  else Ok [].

End HidInterface.

(** ** Vocabulary of the properties *)

(** The sum of the byte lengths of the reports. *)
Definition total_size (reports : list HidReport) : Z :=
  Z.of_nat (sum_list_with length reports).

(** A 16-bit value as two bytes, low byte first, and back. *)
Definition le16 (n : Z) : list Z := [n mod 256; (n / 256) mod 256].
Definition le16_decode (lo hi : Z) : Z := lo + 256 * hi.

(** The [wDescriptorLength] fields of a sequence of 3-byte
    sub-descriptor entries. *)
Fixpoint wDescriptorLengths (entries : list Z) : list Z :=
  match entries with
  | _ :: lo :: hi :: rest => le16_decode lo hi :: wDescriptorLengths rest
  | _ => []
  end.

Definition sum_Z (l : list Z) : Z := foldr Z.add 0 l.

(** The 3-byte entries that start at [address] in [m]. *)
Definition entries_at (count : nat) (address : nat) (m : Memory)
  : list (list Z) :=
  reshape (replicate count 3%nat) (drop address m).

(** The per-report segments of the blob that starts at [address] in [m]. *)
Definition segments_at (reports : list HidReport) (address : nat) (m : Memory)
  : list (list Z) :=
  reshape (length <$> reports) (drop address m).

(** A reordering given by the list of source positions: the element at
    position [k] of [permute sigma l] is the element [sigma !! k] of [l]. *)
Definition permute {A} (sigma : list nat) (l : list A) : list A :=
  omap (fun i => l !! i) sigma.

(** The bytes of one sub-descriptor entry: type 0x22, then the report's
    [sizeof] as a [uint16_t], low byte first. *)
Definition ReportDescriptor (r : HidReport) : list Z :=
  0x22 :: le16 (u16 (sizeof_Data r)).

(** * GPIO ports (include/common/ioports.h) *)

(** [unsigned] and [uint32_t] are 32 bits wide. *)
Definition u32 (z : Z) : Z := z mod 2 ^ 32.

(** [~x] on an [unsigned]. *)
Definition not32 (x : Z) : Z := u32 (Z.lnot x).

Module NativePortBase.

(** [enum Configuration] *)
Definition Analog : Z := 0.
Definition In : Z := 0x04.
Definition Out : Z := 0x03.
Definition AltFunc : Z := 0x0B.

(** [enum PullMode] *)
Definition NoPull : Z := 0.
Definition PullUp : Z := 0x08.
Definition PullDown : Z := 0x18.

(** [enum DriverType] *)
Definition PushPull : Z := 0.
Definition OpenDrain : Z := 4.

(** [enum Speed] *)
Definition Slow : Z := 1.
Definition Medium : Z := 2.
Definition Fast : Z := 3.

(** [static constexpr unsigned int ConfigurationMask(unsigned mask)] *)
Definition ConfigurationMask (mask : Z) : Z :=
  let mask1 := Z.lor (u32 (Z.shiftl (Z.land mask 0xf0) 12)) (Z.land mask 0x0f) in
  let mask2 := Z.lor (u32 (Z.shiftl (Z.land mask1 0x000C000C) 6))
                     (Z.land mask1 0x00030003) in
  Z.lor (u32 (Z.shiftl (Z.land mask2 0x02020202) 3)) (Z.land mask2 0x01010101).

(** [static unsigned UnpackConfig(unsigned mask, unsigned value,
    unsigned configuration, unsigned configMask)] *)
Definition UnpackConfig (mask value configuration configMask : Z) : Z :=
  let mask := ConfigurationMask mask in
  Z.lor (Z.land value (not32 (u32 (mask * configMask))))
        (u32 (mask * configuration)).

End NativePortBase.

Module GPIO.
(** The registers of the port that the port classes access through
    [Regs()]; the register block itself ([GPIO_TypeDef]) is declared
    outside these sources.  Each field is the 32-bit value that the code
    last stored to the register.  What the port does in reaction to a
    store to BSRR, setting and resetting the output bits, happens in the
    hardware and is not part of these sources: the field [BSRR] records
    the request, and nothing is stated about the output bits after
    it. *)
Record t : Set := {
  CRL : Z;
  CRH : Z;
  IDR : Z;
  ODR : Z;
  BSRR : Z
}.
End GPIO.

Module PortImplementation.
Import NativePortBase.

(** [static DataType Read()]; [DataType] is [uint16_t]. *)
Definition Read (regs : GPIO.t) : Z := u16 (GPIO.ODR regs).

(** [static void Write(DataType value)] *)
Definition Write (value : Z) (regs : GPIO.t) : GPIO.t :=
  {| GPIO.CRL := GPIO.CRL regs; GPIO.CRH := GPIO.CRH regs;
     GPIO.IDR := GPIO.IDR regs; GPIO.ODR := value;
     GPIO.BSRR := GPIO.BSRR regs |}.

Definition write_BSRR (value : Z) (regs : GPIO.t) : GPIO.t :=
  {| GPIO.CRL := GPIO.CRL regs; GPIO.CRH := GPIO.CRH regs;
     GPIO.IDR := GPIO.IDR regs; GPIO.ODR := GPIO.ODR regs;
     GPIO.BSRR := value |}.

Definition write_CRL (value : Z) (regs : GPIO.t) : GPIO.t :=
  {| GPIO.CRL := value; GPIO.CRH := GPIO.CRH regs;
     GPIO.IDR := GPIO.IDR regs; GPIO.ODR := GPIO.ODR regs;
     GPIO.BSRR := GPIO.BSRR regs |}.

Definition write_CRH (value : Z) (regs : GPIO.t) : GPIO.t :=
  {| GPIO.CRL := GPIO.CRL regs; GPIO.CRH := value;
     GPIO.IDR := GPIO.IDR regs; GPIO.ODR := GPIO.ODR regs;
     GPIO.BSRR := GPIO.BSRR regs |}.

(** [static void ClearAndSet(DataType clearMask, DataType setMask)]:
    [clearMask << 16] is computed in [int] and converted. *)
Definition ClearAndSet (clearMask setMask : Z) : GPIO.t -> GPIO.t :=
  write_BSRR (Z.lor setMask (u32 (int (Z.shiftl clearMask 16)))).

(** [static void Set(DataType value)] *)
Definition Set_ (value : Z) : GPIO.t -> GPIO.t := write_BSRR value.

(** [static void Clear(DataType value)] *)
Definition Clear (value : Z) : GPIO.t -> GPIO.t :=
  write_BSRR (u32 (Z.shiftl (u32 value) 16)).

(** [static void Toggle(DataType value)] *)
Definition Toggle (value : Z) (regs : GPIO.t) : GPIO.t :=
  Write (Z.lxor (GPIO.ODR regs) value) regs.

(** [static DataType PinRead()] *)
Definition PinRead (regs : GPIO.t) : Z := u16 (GPIO.IDR regs).

(** [template<DataType clearMask, DataType setMask> static void
    ClearAndSet()]: here [clearMask] is converted before the shift. *)
Definition ClearAndSet_t (clearMask setMask : Z) : GPIO.t -> GPIO.t :=
  write_BSRR (Z.lor setMask (u32 (Z.shiftl (u32 clearMask) 16))).

(** [template<unsigned pin> SetPinConfiguration(Configuration)]: the
    overload for [pin < 8] writes CRL, the one for [pin >= 8] writes CRH
    and asserts [pin < 16]. *)
Definition SetPinConfiguration (pin : Z) (configuration : Z) (regs : GPIO.t)
  : result GPIO.t :=
  if pin <? 8 then
    Ok (write_CRL
          (Z.lor (Z.land (GPIO.CRL regs) (not32 (u32 (Z.shiftl 0x0f (pin * 4)))))
                 (u32 (Z.shiftl (u32 configuration) (pin * 4))))
          regs)
  else if pin <? 16 then
    Ok (write_CRH
          (Z.lor (Z.land (GPIO.CRH regs)
                    (not32 (u32 (Z.shiftl 0x0f ((pin - 8) * 4)))))
                 (u32 (Z.shiftl (u32 configuration) ((pin - 8) * 4))))
          regs)
  else Err IllFormed.

(** [static void SetConfiguration(DataType mask, Configuration
    configuration)]: CRL is written first, then CRH. *)
Definition SetConfiguration (mask configuration : Z) (regs : GPIO.t) : GPIO.t :=
  let regs := write_CRL (UnpackConfig mask (GPIO.CRL regs) configuration 0x0f)
                regs in
  write_CRH (UnpackConfig (Z.shiftr mask 8) (GPIO.CRH regs) configuration 0x0f)
    regs.

(** [template<DataType mask, Configuration configuration> static void
    SetConfiguration()] *)
Definition SetConfiguration_t (mask configuration : Z) (regs : GPIO.t)
  : GPIO.t :=
  let lowMaskPart := ConfigurationMask mask in
  let highMaskPart := ConfigurationMask (Z.shiftr mask 8) in
  let regs :=
    write_CRL (Z.lor (Z.land (GPIO.CRL regs) (not32 (u32 (lowMaskPart * 0x0f))))
                     (u32 (lowMaskPart * configuration))) regs in
  write_CRH (Z.lor (Z.land (GPIO.CRH regs) (not32 (u32 (highMaskPart * 0x0f))))
                   (u32 (highMaskPart * configuration))) regs.

(** [static void SetSpeed(DataType mask, Speed speed)] *)
Definition SetSpeed (mask speed : Z) (regs : GPIO.t) : GPIO.t :=
  let regs := write_CRL (UnpackConfig mask (GPIO.CRL regs) speed 0x03) regs in
  write_CRH (UnpackConfig (Z.shiftr mask 8) (GPIO.CRH regs) speed 0x03) regs.

(** [template<DataType mask, Speed speed> void SetSpeed()]: both mask
    parts are [ConfigurationMask(mask)]. *)
Definition SetSpeed_t (mask speed : Z) (regs : GPIO.t) : GPIO.t :=
  let lowMaskPart := ConfigurationMask mask in
  let highMaskPart := ConfigurationMask mask in
  let regs :=
    write_CRL (Z.lor (Z.land (GPIO.CRL regs) (not32 (u32 (lowMaskPart * 0x03))))
                     (u32 (lowMaskPart * speed))) regs in
  write_CRH (Z.lor (Z.land (GPIO.CRH regs) (not32 (u32 (highMaskPart * 0x03))))
                   (u32 (highMaskPart * speed))) regs.

(** [static void SetPullUp(DataType mask, PullMode mode)] *)
Definition SetPullUp (mask mode : Z) (regs : GPIO.t) : GPIO.t :=
  let regs := write_CRL (UnpackConfig mask (GPIO.CRL regs)
                           (Z.land mode 0x08) 0x0f) regs in
  let regs := write_CRH (UnpackConfig (Z.shiftr mask 8) (GPIO.CRH regs)
                           (Z.land mode 0x08) 0x0f) regs in
  if Z.land mode 0x10 =? 0 then Clear mask regs else Set_ mask regs.

(** [static void SetDriverType(DataType mask, DriverType driver)] *)
Definition SetDriverType (mask driver : Z) (regs : GPIO.t) : GPIO.t :=
  let regs := write_CRL (UnpackConfig mask (GPIO.CRL regs) driver 0x04) regs in
  write_CRH (UnpackConfig (Z.shiftr mask 8) (GPIO.CRH regs) driver 0x04) regs.

(** [template <DataType mask, DriverType driver> static void
    SetDriverType()]: both mask parts are [ConfigurationMask(mask)]. *)
Definition SetDriverType_t (mask driver : Z) (regs : GPIO.t) : GPIO.t :=
  let lowMaskPart := ConfigurationMask mask in
  let highMaskPart := ConfigurationMask mask in
  let regs :=
    write_CRL (Z.lor (Z.land (GPIO.CRL regs) (not32 (u32 (lowMaskPart * 0x04))))
                     (u32 (lowMaskPart * driver))) regs in
  write_CRH (Z.lor (Z.land (GPIO.CRH regs) (not32 (u32 (highMaskPart * 0x04))))
                   (u32 (highMaskPart * driver))) regs.

End PortImplementation.

Module PortImplementationL.
Import NativePortBase.

(** [static void SetConfiguration(DataT mask, Configuration)] of the
    lower part of the port. *)
Definition SetConfiguration (mask configuration : Z) (regs : GPIO.t) : GPIO.t :=
  PortImplementation.write_CRL
    (UnpackConfig mask (GPIO.CRL regs) configuration 0x0f) regs.

End PortImplementationL.

Module PortImplementationH.
Import NativePortBase.

(** [static void SetConfiguration(DataT mask, Configuration)] of the
    high part of the port. *)
Definition SetConfiguration (mask configuration : Z) (regs : GPIO.t) : GPIO.t :=
  PortImplementation.write_CRH
    (UnpackConfig (Z.shiftr mask 8) (GPIO.CRH regs) configuration 0x0f) regs.

(** [template<DataT mask, Configuration configuration> static void
    SetConfiguration()] of the high part: the mask part is
    [ConfigurationMask(mask)]. *)
Definition SetConfiguration_t (mask configuration : Z) (regs : GPIO.t)
  : GPIO.t :=
  let configMask := ConfigurationMask mask in
  PortImplementation.write_CRH
    (Z.lor (Z.land (GPIO.CRH regs) (not32 (u32 (configMask * 0x0f))))
           (u32 (configMask * configuration))) regs.

End PortImplementationH.

(** The configuration field of pin [pin] (0..15): four bits of CRL for
    the pins 0..7, of CRH for the pins 8..15. *)
Definition PinConfiguration (pin : Z) (regs : GPIO.t) : Z :=
  if pin <? 8
  then Z.land (Z.shiftr (GPIO.CRL regs) (4 * pin)) 0x0f
  else Z.land (Z.shiftr (GPIO.CRH regs) (4 * (pin - 8))) 0x0f.

(** * Flash wait states (include/f4/flash.h) *)

Module Flash.

Definition MaxFlashFrequence : Z := 24000000.

(** The wait states that [ConfigureFrequence] computes: [uint32_t]
    arithmetic, capped at 7. *)
Definition WaitStates (frequence : Z) : Z :=
  let ws := u32 (frequence - 1) / MaxFlashFrequence in
  if 7 <? ws then 7 else ws.

Section Flash.

(** Bits of FLASH->ACR named by the vendor header, which is outside
    these sources. *)
Variables FLASH_ACR_PRFTEN FLASH_ACR_ICEN FLASH_ACR_DCEN : Z.

(** [void Flash::ConfigureFrequence(uint32_t frequence)], as a function
    of the value of FLASH->ACR before the call. *)
Definition ConfigureFrequence (frequence : Z) (ACR : Z) : Z :=
  let ws := WaitStates frequence in
  Z.lor ACR
    (Z.lor (Z.lor (Z.lor FLASH_ACR_PRFTEN FLASH_ACR_ICEN) FLASH_ACR_DCEN) ws).

End Flash.

End Flash.

(** ** Arithmetic of the conversions *)

Lemma u16_range z : 0 <= u16 z < 65536.
Proof. unfold u16. apply Z.mod_pos_bound. reflexivity. Qed.

Lemma u16_small z : 0 <= z <= 65535 -> u16 z = z.
Proof. intros H. unfold u16. apply Z.mod_small. lia. Qed.

Lemma u8_small z : 0 <= z <= 255 -> u8 z = z.
Proof. intros H. unfold u8. apply Z.mod_small. lia. Qed.

Lemma size_t_small z : 0 <= z < 2 ^ 32 -> size_t z = z.
Proof. intros H. unfold size_t. now apply Z.mod_small. Qed.

Lemma u16_size_t z : u16 (size_t z) = u16 z.
Proof.
  unfold u16, size_t. apply Z.mod_mod_divide.
  exists (2 ^ 16). reflexivity.
Qed.

Lemma u8_size_t z : u8 (size_t z) = u8 z.
Proof.
  unfold u8, size_t. apply Z.mod_mod_divide.
  exists (2 ^ 24). reflexivity.
Qed.

Lemma u16_int z : u16 (int z) = u16 z.
Proof.
  unfold u16, int.
  rewrite (Z.mod_eq (z + 2 ^ 31) (2 ^ 32)) by discriminate.
  replace (z + 2 ^ 31 - 2 ^ 32 * ((z + 2 ^ 31) / 2 ^ 32) - 2 ^ 31)
    with (z + (- (2 ^ 16 * ((z + 2 ^ 31) / 2 ^ 32))) * 2 ^ 16) by lia.
  apply Z.mod_add. discriminate.
Qed.

Lemma u16_add_l a b : u16 (u16 a + b) = u16 (a + b).
Proof. unfold u16. now rewrite Zplus_mod_idemp_l. Qed.

Lemma u16_add_r a b : u16 (a + u16 b) = u16 (a + b).
Proof. unfold u16. now rewrite Zplus_mod_idemp_r. Qed.

(** What the two length stores of [FillReportsDescriptors] hold. *)
Lemma low_byte z :
  u8 (Z.land (u16 z) 0xff) = u16 z mod 256.
Proof.
  change 0xff with (Z.ones 8). rewrite Z.land_ones by lia.
  unfold u8. change (2 ^ 8) with 256. apply Z.mod_mod. discriminate.
Qed.

Lemma high_byte z :
  u8 (Z.land (Z.shiftr (u16 z) 8) 0xff) = (u16 z / 256) mod 256.
Proof.
  change 0xff with (Z.ones 8). rewrite Z.land_ones by lia.
  rewrite Z.shiftr_div_pow2 by lia.
  unfold u8. change (2 ^ 8) with 256. apply Z.mod_mod. discriminate.
Qed.

Lemma le16_decode_le16 n :
  0 <= n <= 65535 ->
  le16_decode (n mod 256) ((n / 256) mod 256) = n.
Proof.
  intros H. unfold le16_decode.
  rewrite (Z.mod_small (n / 256)).
  - symmetry. rewrite Z.add_comm. apply Z.div_mod. discriminate.
  - split; [apply Z.div_pos; lia|].
    apply Z.div_lt_upper_bound; lia.
Qed.

(** ** Stores into a buffer *)

Section Stores.

Implicit Types (pre old post bytes : list Z) (v : Z).

Lemma store_at pre x post v :
  store (length pre) v (pre ++ x :: post) = Ok (tt, pre ++ v :: post).
Proof.
  unfold store. rewrite length_app. simpl.
  destruct (decide (length pre < length pre + S (length post))%nat) as [_|Hn];
    [|lia].
  replace (length pre) with (length pre + 0)%nat at 1 by lia.
  now rewrite insert_app_r.
Qed.

Lemma store_outside (address : nat) v (m : Memory) :
  (length m <= address)%nat -> store address v m = Err OutOfBounds.
Proof.
  intros H. unfold store.
  destruct (decide (address < length m)%nat); [lia | reflexivity].
Qed.

Lemma write_bytes_at bytes : forall pre old post,
  length old = length bytes ->
  write_bytes (length pre) bytes (pre ++ old ++ post)
  = Ok (tt, pre ++ bytes ++ post).
Proof.
  induction bytes as [|b bs IH]; intros pre old post Hlen.
  - destruct old; [reflexivity | discriminate].
  - destruct old as [|x old]; [discriminate|].
    injection Hlen as Hlen.
    cbn [write_bytes]. unfold bind.
    change ((x :: old) ++ post) with (x :: (old ++ post)).
    rewrite store_at.
    specialize (IH (pre ++ [b]) old post Hlen).
    rewrite length_app, Nat.add_1_r in IH.
    rewrite <- !app_assoc in IH. exact IH.
Qed.

Lemma memcpy_at (r : HidReport) pre old post :
  length old = length r ->
  memcpy (length pre) r (sizeof_Data r) (pre ++ old ++ post)
  = Ok (tt, pre ++ r ++ post).
Proof.
  intros Hlen. unfold memcpy, sizeof_Data.
  rewrite Nat2Z.id, firstn_all. now apply write_bytes_at.
Qed.

End Stores.

(** ** The two comma folds *)

Lemma FillReportsDescriptors_fold_at (reports : list HidReport) :
  forall pre old post : list Z,
  length old = (3 * length reports)%nat ->
  FillReportsDescriptors_fold reports (length pre) (pre ++ old ++ post)
  = Ok ((length pre + 3 * length reports)%nat,
        pre ++ mjoin (ReportDescriptor <$> reports) ++ post).
Proof.
  induction reports as [|r rest IH]; intros pre old post Hlen.
  - destruct old; [|discriminate]. cbn. unfold ret.
    now rewrite Nat.add_0_r.
  - destruct old as [|x0 [|x1 [|x2 old]]]; try (cbn in Hlen; lia).
    cbn [FillReportsDescriptors_fold]. unfold bind.
    change ((x0 :: x1 :: x2 :: old) ++ post)
      with (x0 :: ([x1; x2] ++ old ++ post)).
    rewrite store_at.
    replace (length pre + 1)%nat with (length (pre ++ [34])) by
      (rewrite length_app; reflexivity).
    replace (pre ++ 34 :: [x1; x2] ++ old ++ post)
      with ((pre ++ [34]) ++ x1 :: ([x2] ++ old ++ post)) by
      (now rewrite <- app_assoc).
    rewrite store_at, low_byte.
    set (lo := u16 (sizeof_Data r) mod 256).
    replace (length pre + 2)%nat with (length ((pre ++ [34]) ++ [lo])) by
      (rewrite !length_app; cbn; lia).
    replace ((pre ++ [34]) ++ lo :: [x2] ++ old ++ post)
      with (((pre ++ [34]) ++ [lo]) ++ x2 :: (old ++ post)) by
      (now rewrite <- !app_assoc).
    rewrite store_at, high_byte.
    set (hi := (u16 (sizeof_Data r) / 256) mod 256).
    replace (length pre + 3)%nat
      with (length (((pre ++ [34]) ++ [lo]) ++ [hi])) by
      (rewrite !length_app; cbn; lia).
    replace (((pre ++ [34]) ++ [lo]) ++ hi :: old ++ post)
      with ((((pre ++ [34]) ++ [lo]) ++ [hi]) ++ old ++ post) by
      (now rewrite <- !app_assoc).
    rewrite IH by (cbn in Hlen; lia).
    f_equal. f_equal.
    + rewrite !length_app. cbn. lia.
    + rewrite <- !app_assoc. reflexivity.
Qed.

Lemma FillReports_fold_at (reports : list HidReport) :
  forall pre old post : list Z,
  length old = sum_list_with length reports ->
  FillReports_fold reports (length pre) (pre ++ old ++ post)
  = Ok ((length pre + sum_list_with length reports)%nat,
        pre ++ mjoin reports ++ post).
Proof.
  induction reports as [|r rest IH]; intros pre old post Hlen.
  - destruct old; [|discriminate]. cbn. unfold ret.
    now rewrite Nat.add_0_r.
  - cbn [FillReports_fold sum_list_with] in *. unfold bind.
    rewrite <- (take_drop (length r) old), <- (app_assoc _ _ post).
    rewrite memcpy_at by (rewrite length_take; lia).
    replace (length pre + Z.to_nat (sizeof_Data r))%nat
      with (length (pre ++ r)) by
      (rewrite length_app; unfold sizeof_Data; lia).
    rewrite (app_assoc pre r).
    rewrite IH by (rewrite length_drop; lia).
    f_equal. f_equal.
    + rewrite length_app. lia.
    + cbn. now rewrite <- !app_assoc.
Qed.

(** ** The member functions on a buffer with enough room *)

Lemma ReportsSize_fold_u16 (r : HidReport) (rest : list HidReport) :
  u16 (ReportsSize_fold r rest) = u16 (total_size (r :: rest)).
Proof.
  revert r. induction rest as [|r' rest IH]; intros r.
  - cbn [ReportsSize_fold]. unfold total_size, sizeof_Data, u16. cbn.
    rewrite Z.mod_mod by discriminate. now rewrite Nat.add_0_r.
  - cbn [ReportsSize_fold].
    rewrite u16_int, u16_add_l, <- u16_add_r, IH, u16_add_r.
    f_equal. unfold total_size, sizeof_Data. cbn. lia.
Qed.

Lemma ReportsSize_cons (r : HidReport) (rest : list HidReport) :
  ReportsSize (r :: rest) = Ok (u16 (total_size (r :: rest))).
Proof.
  cbn [ReportsSize]. now rewrite ReportsSize_fold_u16.
Qed.

Lemma ReportsSize_nonempty (reports : list HidReport) :
  reports <> [] -> ReportsSize reports = Ok (u16 (total_size reports)).
Proof.
  destruct reports as [|r rest]; [congruence|].
  intros _. apply ReportsSize_cons.
Qed.

Lemma FillReportsDescriptors_at (reports : list HidReport)
    (pre old post : list Z) :
  length old = (3 * length reports)%nat ->
  FillReportsDescriptors reports (length pre) (pre ++ old ++ post)
  = Ok (u16 (3 * Z.of_nat (length reports)),
        pre ++ mjoin (ReportDescriptor <$> reports) ++ post).
Proof.
  intros Hlen. unfold FillReportsDescriptors, bind.
  rewrite FillReportsDescriptors_fold_at by assumption.
  unfold ret, sizeof_pack. now rewrite u16_size_t.
Qed.

Lemma FillReports_at (reports : list HidReport) (pre old post : list Z) :
  reports <> [] ->
  length old = sum_list_with length reports ->
  FillReports reports (length pre) (pre ++ old ++ post)
  = Ok (u16 (total_size reports), pre ++ mjoin reports ++ post).
Proof.
  intros Hne Hlen. unfold FillReports, bind.
  rewrite FillReports_fold_at by assumption.
  now rewrite ReportsSize_nonempty.
Qed.

Lemma FillReports_nil (address : nat) (m : Memory) :
  FillReports [] address m = Err IllFormed.
Proof. reflexivity. Qed.

Lemma FillHidDescriptor_at (_Version : Z) (reports : list HidReport)
    (pre old post : list Z) :
  length old = (6 + 3 * length reports)%nat ->
  FillHidDescriptor _Version reports (length pre) (pre ++ old ++ post)
  = Ok (u16 (6 + u16 (3 * Z.of_nat (length reports))),
        pre ++ HidImpl_bytes (HidImpl_init _Version reports)
            ++ mjoin (ReportDescriptor <$> reports) ++ post).
Proof.
  intros Hlen. unfold FillHidDescriptor, bind.
  rewrite <- (take_drop 6 old), <- (app_assoc _ _ post).
  rewrite write_bytes_at by (rewrite length_take; cbn [HidImpl_bytes length]; lia).
  set (header := HidImpl_bytes (HidImpl_init _Version reports)).
  replace (length pre + Z.to_nat sizeof_HidImpl)%nat
    with (length (pre ++ header)) by (now rewrite length_app).
  rewrite (app_assoc pre header).
  rewrite FillReportsDescriptors_at by (rewrite length_drop; lia).
  unfold ret. rewrite u16_size_t, <- app_assoc. reflexivity.
Qed.

Lemma total_size_mjoin (reports : list HidReport) :
  total_size reports = Z.of_nat (length (mjoin reports)).
Proof.
  unfold total_size. f_equal.
  induction reports as [|r rest IH]; [reflexivity|].
  cbn. rewrite length_app. now rewrite IH.
Qed.

Lemma total_size_nonneg (reports : list HidReport) : 0 <= total_size reports.
Proof. unfold total_size. lia. Qed.

Lemma HidImpl_bytes_small (_Version : Z) (reports : list HidReport) :
  (length reports <= 83)%nat ->
  0 <= _Version <= 65535 ->
  HidImpl_bytes (HidImpl_init _Version reports)
  = [6 + 3 * Z.of_nat (length reports); 0x21] ++ le16 _Version
    ++ [0; Z.of_nat (length reports)].
Proof.
  intros HN Hv. unfold HidImpl_bytes, HidImpl_init, sizeof_pack. cbn [Length
    DescriptorType Version CountryCode ReportsCount].
  rewrite u8_size_t.
  rewrite (size_t_small (3 * _)) by lia.
  rewrite !u8_small by lia. rewrite u16_small by lia.
  change 0xff with (Z.ones 8). rewrite Z.land_ones by lia.
  rewrite Z.shiftr_div_pow2 by lia.
  unfold le16. change (2 ^ 8) with 256.
  rewrite (Z.mod_small (_Version / 256)); [reflexivity|].
  split; [apply Z.div_pos; lia | apply Z.div_lt_upper_bound; lia].
Qed.

Lemma length_ReportDescriptors (reports : list HidReport) :
  length (mjoin (ReportDescriptor <$> reports)) = (3 * length reports)%nat.
Proof.
  induction reports as [|r rest IH]; [reflexivity|].
  change (mjoin (ReportDescriptor <$> r :: rest))
    with (ReportDescriptor r ++ mjoin (ReportDescriptor <$> rest)).
  rewrite length_app, IH. cbn [ReportDescriptor le16 length]. lia.
Qed.

(** ** Pieces of a buffer, and reorderings *)

Lemma reshape_mjoin (ls : list (list Z)) (post : list Z) :
  reshape (length <$> ls) (mjoin ls ++ post) = ls.
Proof.
  induction ls as [|l ls IH]; [reflexivity|].
  change (mjoin (l :: ls)) with (l ++ mjoin ls).
  rewrite fmap_cons. cbn [reshape].
  rewrite <- app_assoc, take_app_length, drop_app_length.
  now rewrite IH.
Qed.

Lemma length_fmap_ReportDescriptor (reports : list HidReport) :
  length <$> (ReportDescriptor <$> reports) = replicate (length reports) 3%nat.
Proof.
  induction reports as [|r rest IH]; [reflexivity|].
  rewrite !fmap_cons, IH. reflexivity.
Qed.

Lemma entries_at_written (reports : list HidReport) (pre post : list Z) :
  entries_at (length reports) (length pre)
    (pre ++ mjoin (ReportDescriptor <$> reports) ++ post)
  = ReportDescriptor <$> reports.
Proof.
  unfold entries_at. rewrite drop_app_length.
  rewrite <- length_fmap_ReportDescriptor. apply reshape_mjoin.
Qed.

Lemma segments_at_written (reports : list HidReport) (pre post : list Z) :
  segments_at reports (length pre) (pre ++ mjoin reports ++ post) = reports.
Proof.
  unfold segments_at. rewrite drop_app_length. apply reshape_mjoin.
Qed.

Lemma permute_fmap {A B} (f : A -> B) (sigma : list nat) (l : list A) :
  permute sigma (f <$> l) = f <$> permute sigma l.
Proof.
  unfold permute. induction sigma as [|i sigma IH]; [reflexivity|].
  cbn [omap list_omap]. rewrite list_lookup_fmap.
  destruct (l !! i); cbn; now rewrite IH.
Qed.

Lemma permute_seq_from {A} (l pre : list A) :
  omap (fun i => (pre ++ l) !! i) (seq (length pre) (length l)) = l.
Proof.
  revert pre. induction l as [|x l IH]; intros pre; [reflexivity|].
  cbn [length seq omap list_omap].
  rewrite list_lookup_middle by reflexivity.
  f_equal. specialize (IH (pre ++ [x])).
  rewrite length_app, Nat.add_1_r, <- app_assoc in IH. exact IH.
Qed.

Lemma permute_id {A} (l : list A) : permute (seq 0 (length l)) l = l.
Proof. exact (permute_seq_from l []). Qed.

Lemma permute_Permutation {A} (sigma : list nat) (l : list A) :
  sigma ≡ₚ seq 0 (length l) -> permute sigma l ≡ₚ l.
Proof.
  intros Hs. pose proof (permute_id l) as Hid.
  unfold permute in *. rewrite Hs. now rewrite Hid.
Qed.

Lemma permute_nonempty {A} (sigma : list nat) (l : list A) :
  sigma ≡ₚ seq 0 (length l) -> l <> [] -> permute sigma l <> [].
Proof.
  intros Hs Hne Hnil. apply Hne.
  apply Permutation_nil. rewrite <- Hnil.
  now apply permute_Permutation.
Qed.

(** ** Decoding the length fields *)

Lemma wDescriptorLengths_written (reports : list HidReport) :
  wDescriptorLengths (mjoin (ReportDescriptor <$> reports))
  = (fun r => u16 (sizeof_Data r)) <$> reports.
Proof.
  induction reports as [|r rest IH]; [reflexivity|].
  rewrite !fmap_cons.
  change (mjoin (ReportDescriptor r :: (ReportDescriptor <$> rest)))
    with (0x22 :: u16 (sizeof_Data r) mod 256
               :: (u16 (sizeof_Data r) / 256) mod 256
               :: mjoin (ReportDescriptor <$> rest)).
  cbn [wDescriptorLengths]. rewrite IH. f_equal.
  apply le16_decode_le16. pose proof (u16_range (sizeof_Data r)). lia.
Qed.

Lemma sum_Z_lengths (reports : list HidReport) :
  Forall (fun r : HidReport => Z.of_nat (length r) <= 65535) reports ->
  sum_Z ((fun r => u16 (sizeof_Data r)) <$> reports) = total_size reports.
Proof.
  unfold total_size.
  induction 1 as [|r rest Hr _ IH]; [reflexivity|].
  rewrite fmap_cons. cbn [sum_Z foldr sum_list_with].
  fold (sum_Z ((fun r => u16 (sizeof_Data r)) <$> rest)). rewrite IH.
  unfold sizeof_Data. rewrite u16_small by lia. lia.
Qed.

(** ** Buffers that hold nothing else *)

Lemma FillReports_fold_whole (reports : list HidReport) (old : list Z) :
  length old = sum_list_with length reports ->
  FillReports_fold reports 0 old = Ok (length old, mjoin reports).
Proof.
  intros Hlen.
  pose proof (FillReports_fold_at reports [] old [] Hlen) as H.
  rewrite !app_nil_r in H. cbn [app length] in H.
  rewrite H, Hlen. reflexivity.
Qed.

Lemma FillReports_whole (reports : list HidReport) (old : list Z) :
  reports <> [] ->
  length old = sum_list_with length reports ->
  FillReports reports 0 old = Ok (u16 (total_size reports), mjoin reports).
Proof.
  intros Hne Hlen. unfold FillReports, bind.
  rewrite FillReports_fold_whole by assumption.
  now rewrite ReportsSize_nonempty.
Qed.

(** * The claims *)

(** C1, as amended.  On a non-empty report list [ReportsSize] never
    fails: it yields a 16-bit value, and that value is the sum of the
    byte lengths of the reports whenever the sum is at most 65535.
    There is no oversize error. *)
Theorem ReportsSize_sum_when_it_fits (reports : list HidReport) :
  reports <> [] ->
  (exists v, ReportsSize reports = Ok v /\ 0 <= v <= 65535)
  /\ (total_size reports <= 65535 ->
      ReportsSize reports = Ok (total_size reports)).
Proof.
  intros Hne. rewrite (ReportsSize_nonempty reports Hne). split.
  - exists (u16 (total_size reports)). split; [reflexivity|].
    pose proof (u16_range (total_size reports)). lia.
  - intros Hfit. rewrite u16_small; [reflexivity|].
    pose proof (total_size_nonneg reports). lia.
Qed.

Lemma ReportsSize_sum_when_it_fits_witness :
  [[5; 1; 9; 6]; [6; 0; 255]] <> []
  /\ (exists v, ReportsSize [[5; 1; 9; 6]; [6; 0; 255]] = Ok v /\ 0 <= v <= 65535)
  /\ (total_size [[5; 1; 9; 6]; [6; 0; 255]] <= 65535 ->
      ReportsSize [[5; 1; 9; 6]; [6; 0; 255]]
      = Ok (total_size [[5; 1; 9; 6]; [6; 0; 255]])).
Proof.
  split; [discriminate|].
  apply (ReportsSize_sum_when_it_fits [[5; 1; 9; 6]; [6; 0; 255]]).
  discriminate.
Defined.

(** C1 as stated fails: two reports of 32768 bytes each have a combined
    length of 65536, and [ReportsSize] answers 0 instead of failing. *)
Lemma ReportsSize_oversize_not_rejected :
  65535 < total_size [replicate (Z.to_nat 32768) 0; replicate (Z.to_nat 32768) 0]
  /\ ReportsSize [replicate (Z.to_nat 32768) 0; replicate (Z.to_nat 32768) 0]
     = Ok 0.
Proof. split; vm_compute; reflexivity. Qed.

(** C10.  For every non-empty report list [ReportsSize] returns the sum
    of the report byte lengths reduced modulo 2^16. *)
Theorem ReportsSize_wraps (reports : list HidReport) :
  reports <> [] ->
  ReportsSize reports = Ok (total_size reports mod 2 ^ 16).
Proof. intros Hne. now apply ReportsSize_nonempty. Qed.

Lemma ReportsSize_wraps_witness :
  [replicate (Z.to_nat 65535) 0; [1; 2; 3]] <> []
  /\ ReportsSize [replicate (Z.to_nat 65535) 0; [1; 2; 3]]
     = Ok (total_size [replicate (Z.to_nat 65535) 0; [1; 2; 3]] mod 2 ^ 16).
Proof.
  split; [discriminate|].
  apply (ReportsSize_wraps [replicate (Z.to_nat 65535) 0; [1; 2; 3]]).
  discriminate.
Defined.

(** C2, as amended.  For every list of N <= 83 reports and every 16-bit
    version, [FillHidDescriptor] overwrites exactly 6 + 3*N bytes of the
    buffer: the header (bLength = 6 + 3*N, bDescriptorType = 0x21, the
    version low byte first, bCountryCode = 0, bNumDescriptors = N)
    followed by the sub-descriptor entries; it returns 6 + 3*N. *)
Theorem FillHidDescriptor_upto_83 (_Version : Z) (reports : list HidReport)
    (pre old post : list Z) :
  (length reports <= 83)%nat ->
  0 <= _Version <= 65535 ->
  length old = (6 + 3 * length reports)%nat ->
  FillHidDescriptor _Version reports (length pre) (pre ++ old ++ post)
  = Ok (6 + 3 * Z.of_nat (length reports),
        pre ++ ([6 + 3 * Z.of_nat (length reports); 0x21] ++ le16 _Version
                ++ [0; Z.of_nat (length reports)])
            ++ mjoin (ReportDescriptor <$> reports) ++ post)
  /\ length (([6 + 3 * Z.of_nat (length reports); 0x21] ++ le16 _Version
              ++ [0; Z.of_nat (length reports)])
             ++ mjoin (ReportDescriptor <$> reports))
     = (6 + 3 * length reports)%nat.
Proof.
  intros HN Hv Hlen. split.
  - rewrite FillHidDescriptor_at by assumption.
    rewrite HidImpl_bytes_small by assumption.
    rewrite (u16_small (3 * _)) by lia.
    rewrite u16_small by lia. reflexivity.
  - rewrite length_app, length_ReportDescriptors. reflexivity.
Qed.

Lemma FillHidDescriptor_upto_83_witness :
  (length [[5; 1; 9; 6]; [6; 0; 255]] <= 83)%nat
  /\ 0 <= 0x0200 <= 65535
  /\ FillHidDescriptor 0x0200 [[5; 1; 9; 6]; [6; 0; 255]] 1
       ([170] ++ replicate 12 0 ++ [187])
     = Ok (12, [170; 12; 0x21; 0; 2; 0; 2; 0x22; 4; 0; 0x22; 3; 0; 187]).
Proof.
  split; [cbn; lia|]. split; [lia|].
  apply (FillHidDescriptor_upto_83 0x0200 [[5; 1; 9; 6]; [6; 0; 255]]
           [170] (replicate 12 0) [187]); [cbn; lia | lia | reflexivity].
Defined.

(** C2 as stated fails: with 84 one-byte reports (blob size 84) the
    descriptor is 258 bytes long but its bLength byte, at offset 0, is 2. *)
Lemma FillHidDescriptor_84_reports :
  total_size (replicate 84 [0]) <= 65535
  /\ exists m,
       FillHidDescriptor 0x0200 (replicate 84 [0]) 0 (replicate 258 0)
       = Ok (258, m)
       /\ m !! 0%nat = Some 2
       /\ 2 <> 6 + 3 * Z.of_nat (length (replicate 84 [0])).
Proof.
  split; [vm_compute; discriminate|].
  eexists. split; [vm_compute; reflexivity|].
  split; [reflexivity | vm_compute; discriminate].
Qed.

(** C3, as amended.  For every report list [FillReportsDescriptors]
    overwrites, for each report in list order, exactly 3 bytes at the
    advancing cursor: 0x22, then the report's byte length reduced modulo
    2^16, low byte first.  It returns 3*N reduced modulo 2^16, which is
    3*N for a list of at most 21845 reports; the two length bytes decode
    to the byte length of a report of at most 65535 bytes. *)
Theorem FillReportsDescriptors_entries (reports : list HidReport)
    (pre old post : list Z) :
  length old = (3 * length reports)%nat ->
  FillReportsDescriptors reports (length pre) (pre ++ old ++ post)
  = Ok ((3 * Z.of_nat (length reports)) mod 2 ^ 16,
        pre ++ mjoin ((fun r => 0x22 :: le16 (Z.of_nat (length r) mod 2 ^ 16))
                        <$> reports) ++ post)
  /\ (Z.of_nat (length reports) <= 21845 ->
      (3 * Z.of_nat (length reports)) mod 2 ^ 16 = 3 * Z.of_nat (length reports))
  /\ (forall r : HidReport, Z.of_nat (length r) <= 65535 ->
      le16 (Z.of_nat (length r) mod 2 ^ 16) = le16 (Z.of_nat (length r))
      /\ wDescriptorLengths (0x22 :: le16 (Z.of_nat (length r)))
         = [Z.of_nat (length r)]).
Proof.
  intros Hlen. split; [|split].
  - now apply FillReportsDescriptors_at.
  - intros HN. apply Z.mod_small. lia.
  - intros r Hr. split.
    + rewrite Z.mod_small by lia. reflexivity.
    + cbn [wDescriptorLengths le16].
      rewrite le16_decode_le16 by lia. reflexivity.
Qed.

Lemma FillReportsDescriptors_entries_witness :
  FillReportsDescriptors [[5; 1; 9; 6]; [6; 0; 255]] 1
    ([170] ++ replicate 6 0 ++ [187])
  = Ok (6, [170; 0x22; 4; 0; 0x22; 3; 0; 187]).
Proof.
  apply (FillReportsDescriptors_entries [[5; 1; 9; 6]; [6; 0; 255]]
           [170] (replicate 6 0) [187]).
  reflexivity.
Defined.

(** C3 as stated fails: for 21846 reports the function writes 65538
    bytes and returns 2, not 3 * 21846. *)
Lemma FillReportsDescriptors_21846_reports :
  3 * Z.of_nat (length (replicate (Z.to_nat 21846) [0])) = 65538
  /\ exists m,
       FillReportsDescriptors (replicate (Z.to_nat 21846) [0]) 0
         (replicate (Z.to_nat 65538) 0)
       = Ok (2, m).
Proof.
  split; [rewrite length_replicate; lia|].
  eexists.
  pose proof (FillReportsDescriptors_at (replicate (Z.to_nat 21846) [0])
                [] (replicate (Z.to_nat 65538) 0) []) as H.
  rewrite !length_replicate, !app_nil_r in H.
  change (length (@nil Z)) with 0%nat in H.
  change ([] ++ replicate (Z.to_nat 65538) 0)
    with (replicate (Z.to_nat 65538) 0) in H.
  rewrite H by lia. f_equal.
Qed.

(** C4, as amended.  For every non-empty report list [FillReports]
    overwrites the buffer at the cursor with the raw bytes of the
    reports, in list order and contiguously, and returns [ReportsSize]
    of the list: the number of bytes written reduced modulo 2^16, which
    is that number when it is at most 65535. *)
Theorem FillReports_blob (reports : list HidReport) (pre old post : list Z) :
  reports <> [] ->
  length old = sum_list_with length reports ->
  FillReports reports (length pre) (pre ++ old ++ post)
  = Ok (Z.of_nat (length (mjoin reports)) mod 2 ^ 16,
        pre ++ mjoin reports ++ post)
  /\ ReportsSize reports = Ok (Z.of_nat (length (mjoin reports)) mod 2 ^ 16)
  /\ length (mjoin reports) = length old
  /\ (Z.of_nat (length (mjoin reports)) <= 65535 ->
      FillReports reports (length pre) (pre ++ old ++ post)
      = Ok (Z.of_nat (length (mjoin reports)), pre ++ mjoin reports ++ post)).
Proof.
  intros Hne Hlen.
  assert (Hjoin : length (mjoin reports) = length old).
  { apply Nat2Z.inj. rewrite <- total_size_mjoin. unfold total_size.
    now rewrite Hlen. }
  rewrite FillReports_at, ReportsSize_nonempty by assumption.
  rewrite total_size_mjoin. repeat split; try assumption.
  intros Hfit. rewrite u16_small by lia. reflexivity.
Qed.

Lemma FillReports_blob_witness :
  [[5; 1; 9; 6]; [6; 0; 255]] <> []
  /\ FillReports [[5; 1; 9; 6]; [6; 0; 255]] 1
       ([170] ++ replicate 7 0 ++ [187])
     = Ok (7, [170; 5; 1; 9; 6; 6; 0; 255; 187]).
Proof.
  split; [discriminate|].
  apply (FillReports_blob [[5; 1; 9; 6]; [6; 0; 255]]
           [170] (replicate 7 0) [187]);
    [discriminate | reflexivity | vm_compute; discriminate].
Defined.

(** C4 as stated fails: one report of 65536 bytes is copied in full,
    65536 bytes are written, and the value returned is 0. *)
Lemma FillReports_65536_bytes :
  FillReports [replicate (Z.to_nat 65536) 7] 0 (replicate (Z.to_nat 65536) 0)
  = Ok (0, replicate (Z.to_nat 65536) 7)
  /\ ReportsSize [replicate (Z.to_nat 65536) 7] = Ok 0
  /\ length (replicate (Z.to_nat 65536) 7) = Z.to_nat 65536.
Proof.
  split; [|split; [vm_compute; reflexivity | apply length_replicate]].
  rewrite FillReports_whole;
    [|discriminate|cbn [sum_list_with]; rewrite !length_replicate; lia].
  change (mjoin [replicate (Z.to_nat 65536) 7])
    with (replicate (Z.to_nat 65536) 7 ++ []).
  rewrite app_nil_r. f_equal.
Qed.

(** C5.  The reports [05 01 09 06] and [06 00 FF] with version 0x0200
    give the 12-byte descriptor and the 7-byte blob of the example,
    written over buffers that held 0xAA in every byte. *)
Theorem example_descriptor_and_blob :
  FillHidDescriptor 0x0200 [[0x05; 0x01; 0x09; 0x06]; [0x06; 0x00; 0xFF]] 0
    (replicate 12 0xAA)
  = Ok (12, [0x0C; 0x21; 0x00; 0x02; 0x00; 0x02;
             0x22; 0x04; 0x00; 0x22; 0x03; 0x00])
  /\ ReportsSize [[0x05; 0x01; 0x09; 0x06]; [0x06; 0x00; 0xFF]] = Ok 7
  /\ FillReports [[0x05; 0x01; 0x09; 0x06]; [0x06; 0x00; 0xFF]] 0
       (replicate 7 0xAA)
     = Ok (7, [0x05; 0x01; 0x09; 0x06; 0x06; 0x00; 0xFF]).
Proof. repeat split; vm_compute; reflexivity. Qed.

(** C6, as amended.  With N = 0 reports the assembled descriptor is
    exactly the 6-byte header with bLength = 6 and bNumDescriptors = 0.
    [ReportsSize] and [FillReports] have no instance for the empty pack:
    there is no blob size and no blob. *)
Theorem HidImpl_of_no_reports (_Version : Z) (pre old post : list Z) :
  0 <= _Version <= 65535 ->
  length old = 6%nat ->
  FillHidDescriptor _Version [] (length pre) (pre ++ old ++ post)
  = Ok (6, pre ++ ([6; 0x21] ++ le16 _Version ++ [0; 0]) ++ post)
  /\ ReportsSize [] = Err IllFormed
  /\ (forall (address : nat) (m : Memory),
        FillReports [] address m = Err IllFormed).
Proof.
  intros Hv Hlen. split; [|split; [reflexivity | apply FillReports_nil]].
  rewrite FillHidDescriptor_at by assumption.
  rewrite HidImpl_bytes_small by (cbn; lia). reflexivity.
Qed.

Lemma HidImpl_of_no_reports_witness :
  0 <= 0x0200 <= 65535
  /\ FillHidDescriptor 0x0200 [] 1 ([170] ++ replicate 6 0 ++ [187])
     = Ok (6, [170; 6; 0x21; 0; 2; 0; 0; 187]).
Proof.
  split; [lia|].
  apply (HidImpl_of_no_reports 0x0200 [170] (replicate 6 0) [187]); [lia | reflexivity].
Defined.

(** C6 as stated fails: [ReportsSize] of the empty list is not 0, it has
    no value. *)
Lemma ReportsSize_nil_not_zero :
  ReportsSize [] <> Ok 0.
Proof. discriminate. Qed.

(** C7, as amended.  For every non-empty report list in which each
    report is at most 65535 bytes long, the length fields that
    [FillReportsDescriptors] writes sum to exactly the number of bytes
    that [FillReports] writes for the blob: the copy of [FillReports]
    leaves the cursor that many bytes further, the bytes it has written
    there are the reports one after the other, and the value it returns
    is that sum as a 16-bit value. *)
Theorem length_fields_sum_to_blob (reports : list HidReport)
    (pre old post pre' old' post' : list Z) :
  reports <> [] ->
  Forall (fun r : HidReport => Z.of_nat (length r) <= 65535) reports ->
  length old = (3 * length reports)%nat ->
  length old' = sum_list_with length reports ->
  exists m : Memory,
    FillReportsDescriptors reports (length pre) (pre ++ old ++ post)
    = Ok ((3 * Z.of_nat (length reports)) mod 2 ^ 16, m)
    /\ FillReports_fold reports (length pre') (pre' ++ old' ++ post')
       = Ok ((length pre'
              + Z.to_nat (sum_Z (wDescriptorLengths
                                   (take (3 * length reports)
                                      (drop (length pre) m)))))%nat,
             pre' ++ mjoin reports ++ post')
    /\ FillReports reports (length pre') (pre' ++ old' ++ post')
       = Ok (sum_Z (wDescriptorLengths
                      (take (3 * length reports) (drop (length pre) m)))
             mod 2 ^ 16,
             pre' ++ mjoin reports ++ post')
    /\ sum_Z (wDescriptorLengths
                (take (3 * length reports) (drop (length pre) m)))
       = Z.of_nat (length (mjoin reports)).
Proof.
  intros Hne Hfit Hlen Hlen'.
  exists (pre ++ mjoin (ReportDescriptor <$> reports) ++ post).
  assert (Hsum : sum_Z (wDescriptorLengths
                          (take (3 * length reports)
                             (drop (length pre)
                                (pre ++ mjoin (ReportDescriptor <$> reports)
                                     ++ post))))
                 = total_size reports).
  { rewrite drop_app_length.
    rewrite take_app_length' by (now rewrite length_ReportDescriptors).
    now rewrite wDescriptorLengths_written, sum_Z_lengths. }
  rewrite Hsum. split; [now apply FillReportsDescriptors_at|].
  split; [|split].
  - rewrite FillReports_fold_at by assumption.
    unfold total_size. now rewrite Nat2Z.id.
  - now apply FillReports_at.
  - apply total_size_mjoin.
Qed.

Lemma length_fields_sum_to_blob_witness :
  exists m : Memory,
    FillReportsDescriptors [[5; 1; 9; 6]; [6; 0; 255]] 1
      ([170] ++ replicate 6 0 ++ [187])
    = Ok (6, m)
    /\ FillReports_fold [[5; 1; 9; 6]; [6; 0; 255]] 2
         ([170; 171] ++ replicate 7 0 ++ [187])
       = Ok ((2 + Z.to_nat (sum_Z (wDescriptorLengths
                                     (take (3 * 2) (drop 1 m)))))%nat,
             [170; 171; 5; 1; 9; 6; 6; 0; 255; 187])
    /\ FillReports [[5; 1; 9; 6]; [6; 0; 255]] 2
         ([170; 171] ++ replicate 7 0 ++ [187])
       = Ok (sum_Z (wDescriptorLengths (take (3 * 2) (drop 1 m)))
             mod 2 ^ 16,
             [170; 171; 5; 1; 9; 6; 6; 0; 255; 187])
    /\ sum_Z (wDescriptorLengths (take (3 * 2) (drop 1 m))) = 7.
Proof.
  apply (length_fields_sum_to_blob [[5; 1; 9; 6]; [6; 0; 255]]
           [170] (replicate 6 0) [187] [170; 171] (replicate 7 0) [187]).
  - discriminate.
  - repeat constructor; cbn; lia.
  - reflexivity.
  - reflexivity.
Defined.

(** C7 as stated fails: for one report of 65536 bytes the length field
    written is 0, while the blob copy overwrites 65536 bytes and leaves
    the cursor 65536 bytes further. *)
Lemma length_field_of_65536_bytes :
  exists m,
    FillReportsDescriptors [replicate (Z.to_nat 65536) 7] 0 [0; 0; 0]
    = Ok (3, m)
    /\ sum_Z (wDescriptorLengths m) = 0
    /\ FillReports_fold [replicate (Z.to_nat 65536) 7] 0
         (replicate (Z.to_nat 65536) 0)
       = Ok (Z.to_nat 65536, replicate (Z.to_nat 65536) 7)
    /\ exists size,
         FillReports [replicate (Z.to_nat 65536) 7] 0
           (replicate (Z.to_nat 65536) 0)
         = Ok (size, replicate (Z.to_nat 65536) 7).
Proof.
  assert (Hlen : length (replicate (Z.to_nat 65536) 0)
                 = sum_list_with length [replicate (Z.to_nat 65536) 7])
    by (cbn [sum_list_with]; rewrite !length_replicate; lia).
  assert (Hblob : mjoin [replicate (Z.to_nat 65536) 7]
                  = replicate (Z.to_nat 65536) 7) by apply app_nil_r.
  exists [0x22; 0; 0].
  split; [vm_compute; reflexivity|]. split; [reflexivity|]. split.
  - rewrite FillReports_fold_whole by exact Hlen.
    now rewrite length_replicate, Hblob.
  - eexists. rewrite FillReports_whole; [|discriminate|exact Hlen].
    now rewrite Hblob.
Qed.

(** C8.  For every report list and every reordering [sigma] of it, the
    sub-descriptor entries written for the reordered list are the
    entries written for the original list reordered by [sigma], and the
    blob written for the reordered list is made of the per-report
    segments of the original blob reordered by the same [sigma]. *)
Theorem reordering_reorders_both (sigma : list nat) (reports : list HidReport)
    (pre old post pre' old' post' : list Z) :
  sigma ≡ₚ seq 0 (length reports) ->
  length old = (3 * length reports)%nat ->
  length old' = sum_list_with length reports ->
  (exists (n : Z) (m : list Z),
     FillReportsDescriptors reports (length pre) (pre ++ old ++ post)
     = Ok (n, m)
     /\ FillReportsDescriptors (permute sigma reports) (length pre)
          (pre ++ old ++ post)
        = Ok (n, pre ++ mjoin (permute sigma
                                 (entries_at (length reports) (length pre) m))
                 ++ post))
  /\ FillReports (permute sigma reports) (length pre') (pre' ++ old' ++ post')
     = match FillReports reports (length pre') (pre' ++ old' ++ post') with
       | Ok (size, m) =>
           Ok (size,
               pre' ++ mjoin (permute sigma
                                (segments_at reports (length pre') m))
                    ++ post')
       | Err e => Err e
       end
  /\ (reports <> [] ->
      exists (size : Z) (m : list Z),
        FillReports reports (length pre') (pre' ++ old' ++ post')
        = Ok (size, m)).
Proof.
  intros Hs Hlen Hlen'.
  pose proof (permute_Permutation sigma reports Hs) as Hperm.
  assert (HN : length (permute sigma reports) = length reports)
    by (now rewrite Hperm).
  assert (Hsum : sum_list_with length (permute sigma reports)
                 = sum_list_with length reports) by (now rewrite Hperm).
  split; [|split].
  - exists (u16 (3 * Z.of_nat (length reports))),
      (pre ++ mjoin (ReportDescriptor <$> reports) ++ post).
    split; [now apply FillReportsDescriptors_at|].
    rewrite FillReportsDescriptors_at by (now rewrite HN).
    rewrite entries_at_written, permute_fmap, HN. reflexivity.
  - destruct (decide (reports = [])) as [->|Hne].
    + apply Permutation_nil_r in Hs. subst sigma. reflexivity.
    + rewrite (FillReports_at reports) by assumption.
      rewrite FillReports_at
        by (try apply permute_nonempty; try rewrite Hsum; assumption).
      rewrite segments_at_written.
      unfold total_size. rewrite Hsum. reflexivity.
  - intros Hne. eexists _, _. now apply FillReports_at.
Qed.

Lemma reordering_reorders_both_witness :
  [1; 0]%nat ≡ₚ seq 0 (length [[5; 1; 9; 6]; [6; 0; 255]])
  /\ (exists (n : Z) (m : list Z),
        FillReportsDescriptors [[5; 1; 9; 6]; [6; 0; 255]] 1
          ([170] ++ replicate 6 0 ++ [187])
        = Ok (n, m)
        /\ FillReportsDescriptors
             (permute [1; 0]%nat [[5; 1; 9; 6]; [6; 0; 255]]) 1
             ([170] ++ replicate 6 0 ++ [187])
           = Ok (n, [170] ++ mjoin (permute [1; 0]%nat (entries_at 2 1 m))
                    ++ [187])).
Proof.
  assert (Hs : [1; 0]%nat ≡ₚ seq 0 (length [[5; 1; 9; 6]; [6; 0; 255]]))
    by apply perm_swap.
  split; [exact Hs|].
  apply (reordering_reorders_both [1; 0]%nat [[5; 1; 9; 6]; [6; 0; 255]]
           [170] (replicate 6 0) [187] [170] (replicate 7 0) [187]);
    [exact Hs | reflexivity | reflexivity].
Defined.

(** C9, as amended.  When the reports are a non-empty list of at most
    65535 bytes in total, then for every GetDescriptor request for the
    HID report descriptor [SetupHandler] fills a scratch buffer of
    [ReportsSize] bytes with the blob and passes it to [SendData] with
    the size min(requested length, blob size); that many bytes of the
    blob are transmitted. *)
Theorem SetupHandler_clamps (GetDescriptor HidReportDescriptor : Z)
    (reports : list HidReport) (stack : nat -> Z) (setup : SetupPacket.t) :
  reports <> [] ->
  total_size reports <= 65535 ->
  SetupPacket.Request setup = GetDescriptor ->
  SetupPacket.Value setup = HidReportDescriptor ->
  0 <= SetupPacket.Length setup ->
  SetupHandler GetDescriptor HidReportDescriptor reports stack setup
  = Ok [SendData (mjoin reports)
          (Z.min (SetupPacket.Length setup) (total_size reports))]
  /\ length (transmitted
               (SendData (mjoin reports)
                  (Z.min (SetupPacket.Length setup) (total_size reports))))
     = Z.to_nat (Z.min (SetupPacket.Length setup) (total_size reports))
  /\ ReportsSize reports = Ok (Z.of_nat (length (mjoin reports))).
Proof.
  intros Hne Hfit Hreq Hval Hlen.
  pose proof (total_size_nonneg reports) as Hpos.
  assert (Hsize : ReportsSize reports = Ok (total_size reports)).
  { rewrite ReportsSize_nonempty by assumption.
    now rewrite u16_small by lia. }
  split; [|split].
  - unfold SetupHandler. rewrite Hreq, Hval, !Z.eqb_refl. cbn [andb].
    rewrite Hsize.
    rewrite FillReports_whole;
      [|assumption
       |rewrite length_map, length_seq; unfold total_size; lia].
    rewrite u16_small by lia.
    unfold Z.min, Z.ltb.
    destruct (SetupPacket.Length setup ?= total_size reports) eqn:Hcmp;
      try reflexivity.
    apply Z.compare_eq in Hcmp. now rewrite Hcmp.
  - cbn [transmitted]. rewrite length_take.
    rewrite total_size_mjoin in *. lia.
  - now rewrite <- total_size_mjoin.
Qed.

Lemma SetupHandler_clamps_witness :
  SetupHandler 6 0x2200 [[5; 1; 9; 6]; [6; 0; 255]] (fun _ => 0xAA)
    {| SetupPacket.Request := 6; SetupPacket.Value := 0x2200;
       SetupPacket.Length := 5 |}
  = Ok [SendData [5; 1; 9; 6; 6; 0; 255] 5].
Proof.
  apply (SetupHandler_clamps 6 0x2200 [[5; 1; 9; 6]; [6; 0; 255]]
           (fun _ => 0xAA)
           {| SetupPacket.Request := 6; SetupPacket.Value := 0x2200;
              SetupPacket.Length := 5 |});
    [discriminate | vm_compute; discriminate | reflexivity | reflexivity
    | cbn; lia].
Defined.

(** C9 as stated fails: with one report of 65537 bytes the scratch
    buffer has [ReportsSize] = 1 byte, and filling it runs past its end;
    nothing is transmitted. *)
Lemma SetupHandler_oversize_blob :
  ReportsSize [replicate (Z.to_nat 65537) 0] = Ok 1
  /\ SetupHandler 6 0x2200 [replicate (Z.to_nat 65537) 0] (fun _ => 0xAA)
       {| SetupPacket.Request := 6; SetupPacket.Value := 0x2200;
          SetupPacket.Length := 64 |}
     = Err OutOfBounds.
Proof. split; vm_compute; reflexivity. Qed.

(** * Further properties of the assembler *)

(** ** On every buffer: the functions as one contiguous write *)

Lemma store_Ok_length (address : nat) (v : Z) (m m' : Memory) :
  store address v m = Ok (tt, m') ->
  (address < length m)%nat /\ length m' = length m.
Proof.
  unfold store. destruct (decide (address < length m)%nat); [|discriminate].
  intros [= <-]. split; [assumption | apply length_insert].
Qed.

Lemma write_bytes_app (l1 l2 : list Z) : forall (dst : nat) (m : Memory),
  write_bytes dst (l1 ++ l2) m
  = (write_bytes dst l1 ;; write_bytes (dst + length l1) l2) m.
Proof.
  induction l1 as [|b l1 IH]; intros dst m.
  - cbn. unfold bind, ret. now rewrite Nat.add_0_r.
  - cbn [app write_bytes length]. unfold bind at 1 2 3.
    destruct (store dst b m) as [[[] m1]|e]; [|reflexivity].
    rewrite IH. unfold bind.
    now replace (S dst + length l1)%nat with (dst + S (length l1))%nat by lia.
Qed.

Lemma write_bytes_oob (bytes : list Z) : forall (dst : nat) (m : Memory),
  bytes <> [] ->
  (length m < dst + length bytes)%nat ->
  write_bytes dst bytes m = Err OutOfBounds.
Proof.
  induction bytes as [|b bs IH]; intros dst m Hne Hroom; [congruence|].
  cbn [write_bytes length] in *. unfold bind.
  destruct (store dst b m) as [[[] m1]|e] eqn:Hst.
  - apply store_Ok_length in Hst as [Hlt Hlen].
    apply IH; [|lia].
    intros ->. cbn in Hroom. lia.
  - unfold store in Hst.
    destruct (decide (dst < length m)%nat); [discriminate|].
    now injection Hst as <-.
Qed.

Lemma write_bytes_room (bytes : list Z) (dst : nat) (m : Memory) :
  (dst + length bytes <= length m)%nat ->
  write_bytes dst bytes m
  = Ok (tt, take dst m ++ bytes ++ drop (dst + length bytes) m).
Proof.
  intros Hroom.
  assert (Hpre : length (take dst m) = dst)
    by (rewrite length_take; lia).
  assert (Hold : length (take (length bytes) (drop dst m)) = length bytes)
    by (rewrite length_take, length_drop; lia).
  pose proof (write_bytes_at bytes (take dst m)
                (take (length bytes) (drop dst m))
                (drop (dst + length bytes) m) Hold) as H.
  rewrite Hpre in H. rewrite <- H. f_equal.
  rewrite <- drop_drop, take_drop, take_drop. reflexivity.
Qed.

(** A write that returns has had room, and its effect is known. *)
Lemma write_bytes_Ok (bytes : list Z) (dst : nat) (m m' : Memory) :
  write_bytes dst bytes m = Ok (tt, m') ->
  (bytes = [] \/ (dst + length bytes <= length m)%nat)
  /\ m' = take dst m ++ bytes ++ drop (dst + length bytes) m.
Proof.
  intros Hw. destruct bytes as [|b bs].
  - cbn in Hw. injection Hw as <-. split; [now left|].
    cbn. now rewrite Nat.add_0_r, take_drop.
  - destruct (decide (dst + length (b :: bs) <= length m)%nat) as [Hroom|Hno].
    + rewrite write_bytes_room in Hw by assumption.
      injection Hw as <-. split; [now right | reflexivity].
    + rewrite write_bytes_oob in Hw by (congruence || lia). discriminate.
Qed.

Lemma write_bytes_again (bytes : list Z) (dst : nat) (m m' : Memory) :
  write_bytes dst bytes m = Ok (tt, m') ->
  write_bytes dst bytes m' = Ok (tt, m').
Proof.
  intros Hw. destruct (write_bytes_Ok _ _ _ _ Hw) as [[->|Hroom] ->].
  - reflexivity.
  - pose proof (write_bytes_at bytes (take dst m) bytes
                  (drop (dst + length bytes) m) eq_refl) as H.
    replace (length (take dst m)) with dst in H
      by (rewrite length_take; lia).
    exact H.
Qed.

Lemma FillReportsDescriptors_fold_as_write (reports : list HidReport) :
  forall (address : nat) (m : Memory),
  FillReportsDescriptors_fold reports address m
  = (write_bytes address (mjoin (ReportDescriptor <$> reports)) ;;
     ret (address + 3 * length reports)%nat) m.
Proof.
  induction reports as [|r rest IH]; intros address m.
  - cbn. unfold bind, ret. now rewrite Nat.add_0_r.
  - rewrite fmap_cons.
    change (mjoin (ReportDescriptor r :: (ReportDescriptor <$> rest)))
      with (ReportDescriptor r ++ mjoin (ReportDescriptor <$> rest)).
    unfold bind at 1. rewrite write_bytes_app.
    cbn [FillReportsDescriptors_fold ReportDescriptor le16 write_bytes length].
    rewrite low_byte, high_byte, !Nat.add_1_r.
    replace (address + 2)%nat with (S (S address)) by lia.
    unfold bind, ret.
    destruct (store address 34 m) as [[[] m1]|e]; [|reflexivity].
    destruct (store (S address) _ m1) as [[[] m2]|e]; [|reflexivity].
    destruct (store (S (S address)) _ m2) as [[[] m3]|e]; [|reflexivity].
    rewrite IH. unfold bind, ret.
    destruct (write_bytes _ _ m3) as [[[] m4]|e]; [|reflexivity].
    do 2 f_equal. cbn [length]. lia.
Qed.

Lemma FillReports_fold_as_write (reports : list HidReport) :
  forall (address : nat) (m : Memory),
  FillReports_fold reports address m
  = (write_bytes address (mjoin reports) ;;
     ret (address + sum_list_with length reports)%nat) m.
Proof.
  induction reports as [|r rest IH]; intros address m.
  - cbn. unfold bind, ret. now rewrite Nat.add_0_r.
  - change (mjoin (r :: rest)) with (r ++ mjoin rest).
    unfold bind at 1. rewrite write_bytes_app.
    cbn [FillReports_fold sum_list_with]. unfold memcpy, sizeof_Data.
    rewrite Nat2Z.id, firstn_all. unfold bind, ret.
    destruct (write_bytes address r m) as [[[] m1]|e]; [|reflexivity].
    rewrite IH. unfold bind, ret.
    destruct (write_bytes _ _ m1) as [[[] m2]|e]; [|reflexivity].
    do 2 f_equal. lia.
Qed.

Lemma FillHidDescriptor_as_write (_Version : Z) (reports : list HidReport)
    (address : nat) (m : Memory) :
  FillHidDescriptor _Version reports address m
  = (write_bytes address
       (HidImpl_bytes (HidImpl_init _Version reports)
        ++ mjoin (ReportDescriptor <$> reports)) ;;
     ret (u16 (6 + u16 (3 * Z.of_nat (length reports))))) m.
Proof.
  unfold bind at 1. rewrite write_bytes_app.
  unfold FillHidDescriptor, FillReportsDescriptors, bind, ret.
  destruct (write_bytes address _ m) as [[[] m1]|e]; [|reflexivity].
  rewrite FillReportsDescriptors_fold_as_write. unfold bind, ret.
  change (address + Z.to_nat sizeof_HidImpl)%nat
    with (address + length (HidImpl_bytes (HidImpl_init _Version reports)))%nat.
  destruct (write_bytes _ _ m1) as [[[] m2]|e]; [|reflexivity].
  unfold sizeof_pack, sizeof_HidImpl. now rewrite !u16_size_t.
Qed.

Lemma FillReportsDescriptors_as_write (reports : list HidReport)
    (address : nat) (m : Memory) :
  FillReportsDescriptors reports address m
  = (write_bytes address (mjoin (ReportDescriptor <$> reports)) ;;
     ret (u16 (3 * Z.of_nat (length reports)))) m.
Proof.
  unfold FillReportsDescriptors, bind at 1.
  rewrite FillReportsDescriptors_fold_as_write. unfold bind, ret.
  destruct (write_bytes _ _ m) as [[[] m1]|e]; [|reflexivity].
  unfold sizeof_pack. now rewrite u16_size_t.
Qed.

Lemma FillReports_as_write (reports : list HidReport)
    (address : nat) (m : Memory) :
  reports <> [] ->
  FillReports reports address m
  = (write_bytes address (mjoin reports) ;;
     ret (u16 (total_size reports))) m.
Proof.
  intros Hne. unfold FillReports, bind at 1.
  rewrite FillReports_fold_as_write. unfold bind, ret.
  destruct (write_bytes _ _ m) as [[[] m1]|e]; [|reflexivity].
  now rewrite ReportsSize_nonempty.
Qed.

Lemma length_mjoin_reports (reports : list HidReport) :
  length (mjoin reports) = sum_list_with length reports.
Proof.
  apply Nat2Z.inj. now rewrite <- total_size_mjoin.
Qed.

Lemma total_size_app (l1 l2 : list HidReport) :
  total_size (l1 ++ l2) = total_size l1 + total_size l2.
Proof. unfold total_size. rewrite sum_list_with_app. lia. Qed.

(** ** Buffers with and without room *)

Lemma write_bytes_cases (bytes : list Z) (dst : nat) (m : Memory) :
  write_bytes dst bytes m
  = if decide (bytes = [] \/ (dst + length bytes <= length m)%nat)
    then Ok (tt, take dst m ++ bytes ++ drop (dst + length bytes) m)
    else Err OutOfBounds.
Proof.
  destruct (decide _) as [[->|Hroom]|Hno].
  - cbn. unfold ret. now rewrite Nat.add_0_r, take_drop.
  - now apply write_bytes_room.
  - apply write_bytes_oob; [tauto | lia].
Qed.

Lemma FillReportsDescriptors_cases (reports : list HidReport)
    (address : nat) (m : Memory) :
  FillReportsDescriptors reports address m
  = if decide (reports = []
               \/ (address + 3 * length reports <= length m)%nat)
    then Ok (u16 (3 * Z.of_nat (length reports)),
             take address m ++ mjoin (ReportDescriptor <$> reports)
               ++ drop (address + 3 * length reports) m)
    else Err OutOfBounds.
Proof.
  rewrite FillReportsDescriptors_as_write. unfold bind, ret.
  rewrite write_bytes_cases, length_ReportDescriptors.
  destruct (decide (reports = [] \/ _)) as [Hyes|Hno];
    destruct (decide (mjoin _ = [] \/ _)) as [Hyes'|Hno'];
    try reflexivity.
  - destruct Hyes as [->|Hroom]; [now destruct Hno'; left | tauto].
  - destruct Hyes' as [Hnil|Hroom]; [|tauto].
    apply (f_equal length) in Hnil.
    rewrite length_ReportDescriptors in Hnil.
    destruct reports; [tauto | cbn in Hnil; lia].
Qed.

Lemma FillReports_cases (reports : list HidReport)
    (address : nat) (m : Memory) :
  reports <> [] ->
  FillReports reports address m
  = if decide (sum_list_with length reports = 0%nat
               \/ (address + sum_list_with length reports <= length m)%nat)
    then Ok (u16 (total_size reports),
             take address m ++ mjoin reports
               ++ drop (address + sum_list_with length reports) m)
    else Err OutOfBounds.
Proof.
  intros Hne. rewrite FillReports_as_write by assumption. unfold bind, ret.
  rewrite write_bytes_cases, length_mjoin_reports.
  destruct (decide (sum_list_with length reports = 0%nat \/ _)) as [Hyes|Hno];
    destruct (decide (mjoin _ = [] \/ _)) as [Hyes'|Hno'];
    try reflexivity.
  - destruct Hyes as [Hz|Hroom]; [|tauto].
    destruct Hno'. left. apply length_zero_iff_nil.
    now rewrite length_mjoin_reports.
  - destruct Hyes' as [Hnil|Hroom]; [|tauto].
    destruct Hno. left. now rewrite <- length_mjoin_reports, Hnil.
Qed.

(** X1.  [FillReportsDescriptors] does not check the room behind the
    cursor: for a non-empty report list and a buffer with fewer than 3*N
    bytes from the cursor on, a store lands outside the buffer. *)
Theorem FillReportsDescriptors_without_room (reports : list HidReport)
    (address : nat) (m : Memory) :
  reports <> [] ->
  (length m < address + 3 * length reports)%nat ->
  FillReportsDescriptors reports address m = Err OutOfBounds.
Proof.
  intros Hne Hroom. rewrite FillReportsDescriptors_cases.
  destruct (decide _) as [[Hnil|Hfits]|_]; [congruence | lia | reflexivity].
Qed.

Lemma FillReportsDescriptors_without_room_witness :
  FillReportsDescriptors [[5; 1; 9; 6]; [6; 0; 255]] 2 (replicate 7 0)
  = Err OutOfBounds.
Proof.
  apply (FillReportsDescriptors_without_room [[5; 1; 9; 6]; [6; 0; 255]] 2
           (replicate 7 0)); [discriminate | cbn; lia].
Defined.

(** X2.  [FillReports] does not check the room either: when the reports
    hold at least one byte and the buffer has fewer bytes from the cursor
    on than the reports have in total, a store lands outside the
    buffer. *)
Theorem FillReports_without_room (reports : list HidReport)
    (address : nat) (m : Memory) :
  (0 < sum_list_with length reports)%nat ->
  (length m < address + sum_list_with length reports)%nat ->
  FillReports reports address m = Err OutOfBounds.
Proof.
  intros Hpos Hroom.
  assert (Hne : reports <> []) by (intros ->; cbn in Hpos; lia).
  rewrite FillReports_cases by assumption.
  destruct (decide _) as [[Hz|Hfits]|_]; [lia | lia | reflexivity].
Qed.

Lemma FillReports_without_room_witness :
  FillReports [[5; 1; 9; 6]; [6; 0; 255]] 0 (replicate 6 0)
  = Err OutOfBounds.
Proof.
  apply (FillReports_without_room [[5; 1; 9; 6]; [6; 0; 255]] 0
           (replicate 6 0)); cbn; lia.
Defined.

(** ** The request handler on every configuration *)

Lemma SetupHandler_other_request (GetDescriptor HidReportDescriptor : Z)
    (reports : list HidReport) (stack : nat -> Z) (setup : SetupPacket.t) :
  ~ (SetupPacket.Request setup = GetDescriptor
     /\ SetupPacket.Value setup = HidReportDescriptor) ->
  SetupHandler GetDescriptor HidReportDescriptor reports stack setup = Ok [].
Proof.
  intros Hno. unfold SetupHandler.
  destruct (Z.eqb_spec (SetupPacket.Request setup) GetDescriptor);
    destruct (Z.eqb_spec (SetupPacket.Value setup) HidReportDescriptor);
    try reflexivity.
  tauto.
Qed.

Lemma SetupHandler_this_request (GetDescriptor HidReportDescriptor : Z)
    (reports : list HidReport) (stack : nat -> Z) (setup : SetupPacket.t) :
  SetupPacket.Request setup = GetDescriptor ->
  SetupPacket.Value setup = HidReportDescriptor ->
  SetupHandler GetDescriptor HidReportDescriptor reports stack setup
  = if decide (reports = []) then Err IllFormed
    else if decide (total_size reports <= 65535)
    then Ok [SendData (mjoin reports)
               (Z.min (SetupPacket.Length setup) (total_size reports))]
    else Err OutOfBounds.
Proof.
  intros Hreq Hval. unfold SetupHandler.
  rewrite Hreq, Hval, !Z.eqb_refl. cbn [andb].
  destruct (decide (reports = [])) as [->|Hne]; [reflexivity|].
  rewrite ReportsSize_nonempty by assumption.
  pose proof (u16_range (total_size reports)) as Hu.
  pose proof (total_size_nonneg reports) as Hpos.
  destruct (decide (total_size reports <= 65535)) as [Hfit|Hbig].
  - rewrite FillReports_whole;
      [|assumption
       |rewrite length_map, length_seq, u16_small by lia;
        unfold total_size; lia].
    rewrite u16_small by lia.
    unfold Z.min, Z.ltb.
    destruct (SetupPacket.Length setup ?= total_size reports) eqn:Hcmp;
      try reflexivity.
    apply Z.compare_eq in Hcmp. now rewrite Hcmp.
  - rewrite FillReports_cases by assumption.
    rewrite length_map, length_seq.
    destruct (decide _) as [[Hz|Hfits]|_]; [| |reflexivity];
      unfold total_size in *; lia.
Qed.

(** X3.  With a non-empty report list of more than 65535 bytes in total,
    the scratch array of [SetupHandler] is shorter than the blob, and a
    request for the HID report descriptor makes [FillReports] store
    outside it. *)
Theorem SetupHandler_oversize (GetDescriptor HidReportDescriptor : Z)
    (reports : list HidReport) (stack : nat -> Z) (setup : SetupPacket.t) :
  reports <> [] ->
  65535 < total_size reports ->
  SetupPacket.Request setup = GetDescriptor ->
  SetupPacket.Value setup = HidReportDescriptor ->
  SetupHandler GetDescriptor HidReportDescriptor reports stack setup
  = Err OutOfBounds
  /\ exists n, ReportsSize reports = Ok n /\ n < total_size reports.
Proof.
  intros Hne Hbig Hreq Hval. split.
  - rewrite SetupHandler_this_request by assumption.
    destruct (decide (reports = [])); [contradiction|].
    destruct (decide (total_size reports <= 65535)); [lia | reflexivity].
  - exists (u16 (total_size reports)).
    split; [now apply ReportsSize_nonempty|].
    pose proof (u16_range (total_size reports)). lia.
Qed.

Lemma SetupHandler_oversize_witness :
  SetupHandler 6 0x2200
    [replicate (Z.to_nat 40000) 1; replicate (Z.to_nat 40000) 2]
    (fun _ => 0xAA)
    {| SetupPacket.Request := 6; SetupPacket.Value := 0x2200;
       SetupPacket.Length := 64 |}
  = Err OutOfBounds.
Proof.
  apply (SetupHandler_oversize 6 0x2200
           [replicate (Z.to_nat 40000) 1; replicate (Z.to_nat 40000) 2]);
    [discriminate | | reflexivity | reflexivity].
  unfold total_size. cbn [sum_list_with]. rewrite !length_replicate. lia.
Defined.

(** X4.  Whatever the configuration and the packet, when [SetupHandler]
    returns it has either sent nothing, and the packet was not a
    GetDescriptor request for the HID report descriptor, or made exactly
    one [SendData] call, with the whole blob of a non-empty report list
    of at most 65535 bytes and the size min(requested length, blob
    size). *)
Theorem SetupHandler_calls (GetDescriptor HidReportDescriptor : Z)
    (reports : list HidReport) (stack : nat -> Z) (setup : SetupPacket.t)
    (calls : list Ep0Call) :
  SetupHandler GetDescriptor HidReportDescriptor reports stack setup
  = Ok calls ->
  (calls = []
   /\ ~ (SetupPacket.Request setup = GetDescriptor
         /\ SetupPacket.Value setup = HidReportDescriptor))
  \/ (calls = [SendData (mjoin reports)
                 (Z.min (SetupPacket.Length setup) (total_size reports))]
      /\ SetupPacket.Request setup = GetDescriptor
      /\ SetupPacket.Value setup = HidReportDescriptor
      /\ reports <> []
      /\ total_size reports <= 65535).
Proof.
  intros Hrun.
  destruct (decide (SetupPacket.Request setup = GetDescriptor
                    /\ SetupPacket.Value setup = HidReportDescriptor))
    as [[Hreq Hval]|Hno].
  - right. rewrite SetupHandler_this_request in Hrun by assumption.
    destruct (decide (reports = [])); [discriminate|].
    destruct (decide (total_size reports <= 65535)); [|discriminate].
    injection Hrun as <-. repeat split; assumption.
  - left. rewrite SetupHandler_other_request in Hrun by assumption.
    injection Hrun as <-. split; [reflexivity | assumption].
Qed.

Lemma SetupHandler_calls_witness :
  ([SendData [5; 1; 9; 6; 6; 0; 255] 5] = []
   /\ ~ (6 = 6 /\ 0x2200 = 0x2200))
  \/ ([SendData [5; 1; 9; 6; 6; 0; 255] 5]
      = [SendData (mjoin [[5; 1; 9; 6]; [6; 0; 255]])
           (Z.min 5 (total_size [[5; 1; 9; 6]; [6; 0; 255]]))]
      /\ 6 = 6 /\ 0x2200 = 0x2200
      /\ [[5; 1; 9; 6]; [6; 0; 255]] <> []
      /\ total_size [[5; 1; 9; 6]; [6; 0; 255]] <= 65535).
Proof.
  apply (SetupHandler_calls 6 0x2200 [[5; 1; 9; 6]; [6; 0; 255]]
           (fun _ => 0xAA)
           {| SetupPacket.Request := 6; SetupPacket.Value := 0x2200;
              SetupPacket.Length := 5 |}
           [SendData [5; 1; 9; 6; 6; 0; 255] 5]).
  reflexivity.
Defined.

(** ** Composition, order and repetition *)

Lemma u16_u16 z : u16 (u16 z) = u16 z.
Proof. unfold u16. apply Z.mod_mod. discriminate. Qed.

(** X5.  Report lists compose: on every buffer, with or without room,
    [FillReportsDescriptors] on [l1 ++ l2] behaves as
    [FillReportsDescriptors] on [l1] followed by
    [FillReportsDescriptors] on [l2] at the cursor advanced by three
    bytes per report of [l1], and returns the sum of the two values
    reduced to 16 bits. *)
Theorem FillReportsDescriptors_app (l1 l2 : list HidReport)
    (address : nat) (m : Memory) :
  FillReportsDescriptors (l1 ++ l2) address m
  = (n1 <- FillReportsDescriptors l1 address ;;
     n2 <- FillReportsDescriptors l2 (address + 3 * length l1) ;;
     ret (u16 (n1 + n2))) m.
Proof.
  rewrite FillReportsDescriptors_as_write, fmap_app, join_app.
  unfold bind. rewrite write_bytes_app. unfold bind.
  rewrite (FillReportsDescriptors_as_write l1). unfold bind, ret.
  destruct (write_bytes address _ m) as [[[] m1]|e]; [|reflexivity].
  rewrite (FillReportsDescriptors_as_write l2), length_ReportDescriptors.
  unfold bind, ret.
  destruct (write_bytes _ _ m1) as [[[] m2]|e]; [|reflexivity].
  rewrite u16_add_l, u16_add_r, length_app. do 3 f_equal. lia.
Qed.

(** X6.  The same for the blob, for two non-empty lists:
    [FillReports] on [l1 ++ l2] behaves as [FillReports] on [l1]
    followed by [FillReports] on [l2] right behind the bytes of [l1],
    and the sizes add up modulo 2^16. *)
Theorem FillReports_app (l1 l2 : list HidReport)
    (address : nat) (m : Memory) :
  l1 <> [] ->
  l2 <> [] ->
  FillReports (l1 ++ l2) address m
  = (s1 <- FillReports l1 address ;;
     s2 <- FillReports l2 (address + sum_list_with length l1) ;;
     ret (u16 (s1 + s2))) m.
Proof.
  intros H1 H2.
  rewrite FillReports_as_write by (destruct l1; [congruence | discriminate]).
  rewrite join_app. unfold bind. rewrite write_bytes_app. unfold bind.
  rewrite (FillReports_as_write l1) by assumption. unfold bind, ret.
  destruct (write_bytes address _ m) as [[[] m1]|e]; [|reflexivity].
  rewrite (FillReports_as_write l2), length_mjoin_reports by assumption.
  unfold bind, ret.
  destruct (write_bytes _ _ m1) as [[[] m2]|e]; [|reflexivity].
  now rewrite u16_add_l, u16_add_r, total_size_app.
Qed.

Lemma FillReports_app_witness :
  FillReports ([[5; 1; 9; 6]] ++ [[6; 0; 255]]) 1 (replicate 9 0)
  = (s1 <- FillReports [[5; 1; 9; 6]] 1 ;;
     s2 <- FillReports [[6; 0; 255]]
             (1 + sum_list_with length [[5; 1; 9; 6]]) ;;
     ret (u16 (s1 + s2))) (replicate 9 0).
Proof.
  apply (FillReports_app [[5; 1; 9; 6]] [[6; 0; 255]] 1 (replicate 9 0));
    discriminate.
Defined.

(** X7.  The class descriptor depends on the reports only through their
    lengths: two report lists with the same lengths give the same
    header, the same sub-descriptor entries and the same [ReportsSize],
    on every buffer. *)
Theorem descriptor_reads_lengths_only (_Version : Z)
    (reports reports' : list HidReport) (address : nat) (m : Memory) :
  length <$> reports = length <$> reports' ->
  FillHidDescriptor _Version reports address m
  = FillHidDescriptor _Version reports' address m
  /\ FillReportsDescriptors reports address m
     = FillReportsDescriptors reports' address m
  /\ ReportsSize reports = ReportsSize reports'.
Proof.
  intros Hlen.
  assert (HN : length reports = length reports').
  { apply (f_equal length) in Hlen. now rewrite !length_fmap in Hlen. }
  assert (HE : ReportDescriptor <$> reports = ReportDescriptor <$> reports').
  { change ReportDescriptor
      with ((fun n : nat => 0x22 :: le16 (u16 (Z.of_nat n))) ∘ @length Z).
    now rewrite !list_fmap_compose, Hlen. }
  assert (HT : total_size reports = total_size reports').
  { unfold total_size. f_equal.
    clear -Hlen. revert reports' Hlen.
    induction reports as [|r rest IH]; intros [|r' rest'] Hlen;
      try discriminate; [reflexivity|].
    rewrite !fmap_cons in Hlen. injection Hlen as Hr Hrest.
    cbn [sum_list_with]. now rewrite Hr, (IH rest'). }
  split; [|split].
  - rewrite !FillHidDescriptor_as_write.
    unfold HidImpl_init, sizeof_pack. now rewrite HE, HN.
  - rewrite !FillReportsDescriptors_as_write. now rewrite HE, HN.
  - destruct reports as [|r rest], reports' as [|r' rest'];
      try discriminate; [reflexivity|].
    now rewrite !ReportsSize_cons, HT.
Qed.

Lemma descriptor_reads_lengths_only_witness :
  FillHidDescriptor 0x0200 [[5; 1; 9; 6]; [6; 0; 255]] 0 (replicate 12 0)
  = FillHidDescriptor 0x0200 [[0; 0; 0; 0]; [1; 1; 1]] 0 (replicate 12 0).
Proof.
  apply (descriptor_reads_lengths_only 0x0200 [[5; 1; 9; 6]; [6; 0; 255]]
           [[0; 0; 0; 0]; [1; 1; 1]] 0 (replicate 12 0)).
  reflexivity.
Defined.

(** X8.  [ReportsSize] does not depend on the order of the reports. *)
Theorem ReportsSize_Permutation (reports reports' : list HidReport) :
  reports ≡ₚ reports' ->
  ReportsSize reports = ReportsSize reports'.
Proof.
  intros Hperm.
  assert (HT : total_size reports = total_size reports')
    by (unfold total_size; now rewrite Hperm).
  destruct reports as [|r rest], reports' as [|r' rest'].
  - reflexivity.
  - now apply Permutation_nil_cons in Hperm.
  - symmetry in Hperm. now apply Permutation_nil_cons in Hperm.
  - now rewrite !ReportsSize_cons, HT.
Qed.

Lemma ReportsSize_Permutation_witness :
  ReportsSize [[5; 1; 9; 6]; [6; 0; 255]]
  = ReportsSize [[6; 0; 255]; [5; 1; 9; 6]].
Proof.
  apply (ReportsSize_Permutation [[5; 1; 9; 6]; [6; 0; 255]]
           [[6; 0; 255]; [5; 1; 9; 6]]).
  apply perm_swap.
Defined.

(** X9.  Assembling twice changes nothing: when [FillHidDescriptor] or
    [FillReports] returns, running it again at the same cursor on the
    buffer it left returns the same value and leaves the buffer as it
    is. *)
Theorem assembling_again (_Version : Z) (reports : list HidReport)
    (address : nat) (m m' : Memory) (n : Z) :
  (FillHidDescriptor _Version reports address m = Ok (n, m') ->
   FillHidDescriptor _Version reports address m' = Ok (n, m'))
  /\ (FillReports reports address m = Ok (n, m') ->
      FillReports reports address m' = Ok (n, m')).
Proof.
  split.
  - rewrite !FillHidDescriptor_as_write. unfold bind, ret.
    destruct (write_bytes address _ m) as [[[] m1]|e] eqn:Hw;
      [|discriminate].
    intros [= <- <-]. now rewrite (write_bytes_again _ _ _ _ Hw).
  - destruct (decide (reports = [])) as [->|Hne]; [discriminate|].
    rewrite !FillReports_as_write by assumption. unfold bind, ret.
    destruct (write_bytes address _ m) as [[[] m1]|e] eqn:Hw;
      [|discriminate].
    intros [= <- <-]. now rewrite (write_bytes_again _ _ _ _ Hw).
Qed.

Lemma assembling_again_witness :
  FillReports [[5; 1; 9; 6]; [6; 0; 255]] 1
    [170; 5; 1; 9; 6; 6; 0; 255; 187]
  = Ok (7, [170; 5; 1; 9; 6; 6; 0; 255; 187]).
Proof.
  apply (assembling_again 0x0200 [[5; 1; 9; 6]; [6; 0; 255]] 1
           ([170] ++ replicate 7 0 ++ [187])
           [170; 5; 1; 9; 6; 6; 0; 255; 187] 7).
  reflexivity.
Defined.

(** ** Reading the output back *)

Lemma ReportDescriptor_lengths (reports : list HidReport) :
  Forall (fun r : HidReport => Z.of_nat (length r) <= 65535) reports ->
  Z.to_nat <$> wDescriptorLengths (mjoin (ReportDescriptor <$> reports))
  = length <$> reports.
Proof.
  intros Hfit. rewrite wDescriptorLengths_written.
  induction Hfit as [|r rest Hr _ IH]; [reflexivity|].
  rewrite !fmap_cons, IH. f_equal.
  unfold sizeof_Data. rewrite u16_small by lia. apply Nat2Z.id.
Qed.

(** X10.  A reader gets the reports back.  When every report is at most
    65535 bytes long, cutting the blob written by [FillReports] at the
    lengths read from the entries written by [FillReportsDescriptors]
    gives the original report list. *)
Theorem blob_cut_at_length_fields (reports : list HidReport)
    (pre old post pre' old' post' : list Z) :
  reports <> [] ->
  Forall (fun r : HidReport => Z.of_nat (length r) <= 65535) reports ->
  length old = (3 * length reports)%nat ->
  length old' = sum_list_with length reports ->
  exists (n size : Z) (m m' : Memory),
    FillReportsDescriptors reports (length pre) (pre ++ old ++ post)
    = Ok (n, m)
    /\ FillReports reports (length pre') (pre' ++ old' ++ post')
       = Ok (size, m')
    /\ reshape (Z.to_nat <$> wDescriptorLengths
                  (take (3 * length reports) (drop (length pre) m)))
         (drop (length pre') m')
       = reports.
Proof.
  intros Hne Hfit Hlen Hlen'.
  eexists _, _, _, _.
  split; [now apply FillReportsDescriptors_at|].
  split; [now apply FillReports_at|].
  rewrite !drop_app_length.
  rewrite take_app_length' by (now rewrite length_ReportDescriptors).
  rewrite ReportDescriptor_lengths by assumption.
  apply reshape_mjoin.
Qed.

Lemma blob_cut_at_length_fields_witness :
  exists (n size : Z) (m m' : Memory),
    FillReportsDescriptors [[5; 1; 9; 6]; [6; 0; 255]] 1
      ([170] ++ replicate 6 0 ++ [187])
    = Ok (n, m)
    /\ FillReports [[5; 1; 9; 6]; [6; 0; 255]] 2
         ([170; 171] ++ replicate 7 0 ++ [187])
       = Ok (size, m')
    /\ reshape (Z.to_nat <$> wDescriptorLengths (take (3 * 2) (drop 1 m)))
         (drop 2 m')
       = [[5; 1; 9; 6]; [6; 0; 255]].
Proof.
  apply (blob_cut_at_length_fields [[5; 1; 9; 6]; [6; 0; 255]]
           [170] (replicate 6 0) [187] [170; 171] (replicate 7 0) [187]).
  - discriminate.
  - repeat constructor; cbn; lia.
  - reflexivity.
  - reflexivity.
Defined.

(** ** The header for every number of reports *)

Lemma u8_range z : 0 <= u8 z <= 255.
Proof.
  unfold u8. pose proof (Z.mod_pos_bound z (2 ^ 8) eq_refl). lia.
Qed.

Lemma HidImpl_init_Length (_Version : Z) (reports : list HidReport) :
  Length (HidImpl_init _Version reports)
  = (6 + 3 * Z.of_nat (length reports)) mod 256.
Proof.
  cbn [HidImpl_init Length]. unfold sizeof_pack.
  rewrite u8_size_t. unfold u8, size_t. change (2 ^ 8) with 256.
  rewrite <- Zplus_mod_idemp_r.
  rewrite (Z.mod_mod_divide _ (2 ^ 32) 256) by (exists (2 ^ 24); reflexivity).
  now rewrite Zplus_mod_idemp_r.
Qed.

(** X11.  For every number of reports the header describes itself modulo
    256: bLength is (6 + 3 * bNumDescriptors) mod 256, where
    bNumDescriptors is N mod 256.  bLength equals 6 + 3 *
    bNumDescriptors exactly when N mod 256 is at most 83. *)
Theorem HidImpl_self_description (_Version : Z) (reports : list HidReport) :
  ReportsCount (HidImpl_init _Version reports)
  = Z.of_nat (length reports) mod 256
  /\ Length (HidImpl_init _Version reports)
     = (6 + 3 * ReportsCount (HidImpl_init _Version reports)) mod 256
  /\ (Length (HidImpl_init _Version reports)
      = 6 + 3 * ReportsCount (HidImpl_init _Version reports)
      <-> Z.of_nat (length reports) mod 256 <= 83).
Proof.
  rewrite HidImpl_init_Length.
  cbn [HidImpl_init ReportsCount]. unfold sizeof_pack, u8.
  change (2 ^ 8) with 256.
  set (N := Z.of_nat (length reports)).
  assert (HL : (6 + 3 * N) mod 256 = (6 + 3 * (N mod 256)) mod 256).
  { rewrite <- (Zplus_mod_idemp_r (3 * N)), <- (Zmult_mod_idemp_r N).
    now rewrite Zplus_mod_idemp_r. }
  pose proof (Z.mod_pos_bound N 256 eq_refl) as Hk.
  pose proof (Z.mod_pos_bound (6 + 3 * (N mod 256)) 256 eq_refl) as Hl.
  split; [reflexivity|]. split; [exact HL|].
  rewrite HL. split.
  - intros Heq. lia.
  - intros Hle. apply Z.mod_small. lia.
Qed.

Lemma HidImpl_self_description_witness :
  Length (HidImpl_init 0x0200 [[5; 1; 9; 6]; [6; 0; 255]])
  = 6 + 3 * ReportsCount (HidImpl_init 0x0200 [[5; 1; 9; 6]; [6; 0; 255]]).
Proof.
  pose proof (HidImpl_self_description 0x0200 [[5; 1; 9; 6]; [6; 0; 255]])
    as [_ [_ H]].
  apply H. vm_compute. discriminate.
Defined.

(** X12.  Every byte that [FillHidDescriptor] writes is a value from 0
    to 255, and the value it returns is one from 0 to 65535, for every
    report list and every version. *)
Theorem FillHidDescriptor_writes_bytes (_Version : Z)
    (reports : list HidReport) (address : nat) (m m' : Memory) (n : Z) :
  FillHidDescriptor _Version reports address m = Ok (n, m') ->
  Forall (fun b => 0 <= b <= 255)
    (take (6 + 3 * length reports) (drop address m'))
  /\ 0 <= n <= 65535
  /\ length m' = length m.
Proof.
  rewrite FillHidDescriptor_as_write. unfold bind, ret.
  destruct (write_bytes address _ m) as [[[] m1]|e] eqn:Hw; [|discriminate].
  intros [= <- <-].
  set (B := HidImpl_bytes (HidImpl_init _Version reports)
            ++ mjoin (ReportDescriptor <$> reports)) in *.
  assert (HB : length B = (6 + 3 * length reports)%nat)
    by (unfold B; rewrite length_app, length_ReportDescriptors; reflexivity).
  destruct (write_bytes_Ok _ _ _ _ Hw) as [[Hnil|Hroom] ->];
    [rewrite Hnil in HB; discriminate|].
  assert (Hpre : length (take address m) = address)
    by (rewrite length_take; lia).
  split; [|split].
  - rewrite drop_app_length' by (now rewrite Hpre).
    rewrite take_app_length' by (now rewrite HB).
    unfold B. apply Forall_app. split.
    + pose proof (u16_range _Version) as Hv.
      assert (Hlo : 0 <= Z.land (u16 _Version) 0xff <= 255).
      { change 0xff with (Z.ones 8). rewrite Z.land_ones by lia.
        exact (u8_range (u16 _Version)). }
      assert (Hhi : 0 <= Z.shiftr (u16 _Version) 8 <= 255).
      { rewrite Z.shiftr_div_pow2 by lia. change (2 ^ 8) with 256.
        split; [apply Z.div_pos; lia|].
        enough (u16 _Version / 256 < 256) by lia.
        apply Z.div_lt_upper_bound; lia. }
      unfold HidImpl_bytes.
      cbn [HidImpl_init Length DescriptorType Version CountryCode
             ReportsCount].
      repeat first [apply List.Forall_cons | apply List.Forall_nil];
        first [apply u8_range | assumption | lia].
    + clear. induction reports as [|r rest IH]; [constructor|].
      rewrite fmap_cons.
      change (mjoin (ReportDescriptor r :: (ReportDescriptor <$> rest)))
        with (ReportDescriptor r ++ mjoin (ReportDescriptor <$> rest)).
      apply Forall_app. split; [|exact IH].
      unfold ReportDescriptor, le16.
      pose proof (Z.mod_pos_bound (u16 (sizeof_Data r)) 256 eq_refl).
      pose proof (Z.mod_pos_bound (u16 (sizeof_Data r) / 256) 256 eq_refl).
      repeat constructor; lia.
  - pose proof (u16_range (6 + u16 (3 * Z.of_nat (length reports)))). lia.
  - rewrite !length_app, length_take, length_drop. lia.
Qed.

Lemma FillHidDescriptor_writes_bytes_witness :
  Forall (fun b => 0 <= b <= 255)
    (take (6 + 3 * length [[5; 1; 9; 6]; [6; 0; 255]])
       (drop 1 [170; 12; 0x21; 0; 2; 0; 2; 0x22; 4; 0; 0x22; 3; 0; 187]))
  /\ 0 <= 12 <= 65535
  /\ length [170; 12; 0x21; 0; 2; 0; 2; 0x22; 4; 0; 0x22; 3; 0; 187]
     = length ([170] ++ replicate 12 0 ++ [187]).
Proof.
  apply (FillHidDescriptor_writes_bytes 0x0200 [[5; 1; 9; 6]; [6; 0; 255]] 1
           ([170] ++ replicate 12 0 ++ [187])).
  reflexivity.
Defined.

(** * GPIO ports *)

(** ** Checking a property on a finite range by computation *)

Lemma forallb_Z_range (f : Z -> bool) (n : nat) :
  List.forallb f (List.map Z.of_nat (List.seq 0 n)) = true ->
  forall k, 0 <= k < Z.of_nat n -> f k = true.
Proof.
  intros H k Hk. rewrite List.forallb_forall in H. apply H.
  apply List.in_map_iff. exists (Z.to_nat k).
  split; [lia | apply List.in_seq; lia].
Qed.

Lemma u32_range z : 0 <= u32 z < 2 ^ 32.
Proof. unfold u32. apply Z.mod_pos_bound. reflexivity. Qed.

Lemma u32_small z : 0 <= z < 2 ^ 32 -> u32 z = z.
Proof. intros H. unfold u32. now apply Z.mod_small. Qed.

Lemma u32_bits z j : 0 <= j < 32 -> Z.testbit (u32 z) j = Z.testbit z j.
Proof. intros Hj. unfold u32. apply Z.mod_pow2_bits_low. lia. Qed.

Lemma u32_bits_high z j : 32 <= j -> Z.testbit (u32 z) j = false.
Proof. intros Hj. unfold u32. apply Z.mod_pow2_bits_high. lia. Qed.

Lemma not32_bits x j :
  0 <= j < 32 -> Z.testbit (not32 x) j = negb (Z.testbit x j).
Proof.
  intros Hj. unfold not32. rewrite u32_bits by assumption.
  apply Z.lnot_spec. lia.
Qed.

Lemma low_byte_range mask : 0 <= Z.land mask 0xff < 256.
Proof.
  change 0xff with (Z.ones 8). rewrite Z.land_ones by lia.
  apply Z.mod_pos_bound. reflexivity.
Qed.

(** ** [ConfigurationMask] *)

Lemma ConfigurationMask_low_byte mask :
  NativePortBase.ConfigurationMask mask
  = NativePortBase.ConfigurationMask (Z.land mask 0xff).
Proof.
  unfold NativePortBase.ConfigurationMask.
  rewrite <- !(Z.land_assoc mask 0xff). reflexivity.
Qed.

Lemma ConfigurationMask_table :
  List.forallb
    (fun k =>
       List.forallb
         (fun j => Bool.eqb (Z.testbit (NativePortBase.ConfigurationMask k) j)
                     (Z.testbit k (j / 4) && (j mod 4 =? 0)))
         (List.map Z.of_nat (List.seq 0 32))
       && (0 <=? NativePortBase.ConfigurationMask k)
       && (NativePortBase.ConfigurationMask k <? 2 ^ 32))
    (List.map Z.of_nat (List.seq 0 256)) = true.
Proof. vm_compute. reflexivity. Qed.

Lemma ConfigurationMask_mul_table :
  List.forallb
    (fun k =>
       let M := NativePortBase.ConfigurationMask k in
       List.forallb
         (fun c =>
            let P := u32 (M * c) in
            List.forallb
              (fun j =>
                 Bool.eqb (Z.testbit P j)
                   (Z.testbit k (j / 4) && Z.testbit c (j mod 4)))
              (List.map Z.of_nat (List.seq 0 32)))
         (List.map Z.of_nat (List.seq 0 16)))
    (List.map Z.of_nat (List.seq 0 256)) = true.
Proof. vm_compute. reflexivity. Qed.

Lemma low_byte_bit mask i :
  0 <= i < 8 -> Z.testbit (Z.land mask 0xff) i = Z.testbit mask i.
Proof.
  intros Hi. rewrite Z.land_spec. change 0xff with (Z.ones 8).
  rewrite Z.ones_spec_low by lia. apply andb_true_r.
Qed.

Lemma ConfigurationMask_range mask :
  0 <= NativePortBase.ConfigurationMask mask < 2 ^ 32.
Proof.
  rewrite ConfigurationMask_low_byte.
  pose proof (forallb_Z_range _ _ ConfigurationMask_table
                (Z.land mask 0xff) (low_byte_range mask)) as H.
  cbv beta in H. apply andb_prop in H as [H Hhi].
  apply andb_prop in H as [_ Hlo]. lia.
Qed.

Lemma ConfigurationMask_bits mask j :
  0 <= j ->
  Z.testbit (NativePortBase.ConfigurationMask mask) j
  = (j <? 32) && Z.testbit mask (j / 4) && (j mod 4 =? 0).
Proof.
  intros Hj. destruct (Z.ltb_spec j 32) as [Hlt|Hge].
  - rewrite ConfigurationMask_low_byte.
    pose proof (forallb_Z_range _ _ ConfigurationMask_table
                  (Z.land mask 0xff) (low_byte_range mask)) as H.
    cbv beta in H. apply andb_prop in H as [H _].
    apply andb_prop in H as [H _].
    pose proof (forallb_Z_range _ _ H j (conj Hj Hlt)) as Hb.
    apply Bool.eqb_prop in Hb. rewrite Hb.
    rewrite low_byte_bit; [reflexivity|].
    split; [apply Z.div_pos; lia | apply Z.div_lt_upper_bound; lia].
  - pose proof (ConfigurationMask_range mask) as Hr.
    rewrite <- (u32_small _ Hr). now apply u32_bits_high.
Qed.

Lemma ConfigurationMask_mul_bits mask c j :
  0 <= c < 16 ->
  0 <= j < 32 ->
  Z.testbit (u32 (NativePortBase.ConfigurationMask mask * c)) j
  = Z.testbit mask (j / 4) && Z.testbit c (j mod 4).
Proof.
  intros Hc Hj. rewrite ConfigurationMask_low_byte.
  pose proof (forallb_Z_range _ _ ConfigurationMask_mul_table
                (Z.land mask 0xff) (low_byte_range mask)) as H.
  cbv beta zeta in H.
  pose proof (forallb_Z_range _ _ H c Hc) as H'. cbv beta zeta in H'.
  pose proof (forallb_Z_range _ _ H' j Hj) as Hb.
  apply Bool.eqb_prop in Hb. rewrite Hb.
  rewrite low_byte_bit; [reflexivity|].
  split; [apply Z.div_pos; lia | apply Z.div_lt_upper_bound; lia].
Qed.

Lemma UnpackConfig_bits mask value configuration configMask j :
  0 <= configuration < 16 ->
  0 <= configMask < 16 ->
  0 <= j < 32 ->
  Z.testbit (NativePortBase.UnpackConfig mask value configuration configMask) j
  = (Z.testbit value j
     && negb (Z.testbit mask (j / 4) && Z.testbit configMask (j mod 4)))
    || (Z.testbit mask (j / 4) && Z.testbit configuration (j mod 4)).
Proof.
  intros Hc Hm Hj. unfold NativePortBase.UnpackConfig.
  rewrite Z.lor_spec, Z.land_spec, not32_bits by assumption.
  now rewrite !ConfigurationMask_mul_bits by assumption.
Qed.

Lemma UnpackConfig_bits_high mask value configuration configMask j :
  32 <= j ->
  Z.testbit (NativePortBase.UnpackConfig mask value configuration configMask) j
  = false.
Proof.
  intros Hj. unfold NativePortBase.UnpackConfig, not32.
  rewrite Z.lor_spec, Z.land_spec, !u32_bits_high by assumption.
  now rewrite andb_false_r.
Qed.

Lemma small_bits c i : 0 <= c < 16 -> 4 <= i -> Z.testbit c i = false.
Proof.
  intros Hc Hi. rewrite <- (Z.mod_small c (2 ^ 4)) by (change (2 ^ 4) with 16; lia).
  apply Z.mod_pow2_bits_high. lia.
Qed.

Lemma nibble_bits x p i :
  0 <= p -> 0 <= i ->
  Z.testbit (Z.land (Z.shiftr x (4 * p)) 0x0f) i
  = (i <? 4) && Z.testbit x (i + 4 * p).
Proof.
  intros Hp Hi. rewrite Z.land_spec, Z.shiftr_spec by assumption.
  change 0x0f with (Z.ones 4).
  destruct (Z.ltb_spec i 4).
  - rewrite Z.ones_spec_low by lia. now rewrite andb_true_r.
  - rewrite Z.ones_spec_high by lia. now rewrite andb_false_r.
Qed.

Lemma nibble_index p i :
  0 <= i < 4 -> (i + 4 * p) / 4 = p /\ (i + 4 * p) mod 4 = i.
Proof.
  intros Hi. rewrite (Z.mul_comm 4 p). split.
  - rewrite Z.div_add by lia. rewrite Z.div_small by lia. lia.
  - rewrite Z.mod_add by lia. now apply Z.mod_small.
Qed.

Lemma UnpackConfig_nibble mask value configuration configMask p :
  0 <= p < 8 ->
  0 <= configuration < 16 ->
  0 <= configMask < 16 ->
  Z.land (Z.shiftr (NativePortBase.UnpackConfig mask value configuration
                      configMask) (4 * p)) 0x0f
  = if Z.testbit mask p
    then Z.lor (Z.ldiff (Z.land (Z.shiftr value (4 * p)) 0x0f) configMask)
               configuration
    else Z.land (Z.shiftr value (4 * p)) 0x0f.
Proof.
  intros Hp Hc Hm. apply Z.bits_inj'. intros i Hi.
  rewrite nibble_bits by lia.
  destruct (Z.ltb_spec i 4) as [Hlt|Hge].
  - destruct (nibble_index p i (conj Hi Hlt)) as [Hdiv Hmod].
    rewrite UnpackConfig_bits by lia. rewrite Hdiv, Hmod.
    destruct (Z.testbit mask p).
    + rewrite Z.lor_spec, Z.ldiff_spec, nibble_bits by lia.
      destruct (Z.ltb_spec i 4); [|lia]. reflexivity.
    + rewrite nibble_bits by lia.
      destruct (Z.ltb_spec i 4); [|lia].
      cbn. now rewrite andb_true_r, orb_false_r.
  - cbn [andb]. destruct (Z.testbit mask p).
    + rewrite Z.lor_spec, Z.ldiff_spec, nibble_bits by lia.
      destruct (Z.ltb_spec i 4); [lia|].
      now rewrite (small_bits configuration) by assumption.
    + rewrite nibble_bits by lia.
      destruct (Z.ltb_spec i 4); [lia | reflexivity].
Qed.

Lemma ldiff_nibble x : Z.ldiff (Z.land x 0x0f) 0x0f = 0.
Proof.
  apply Z.bits_inj'. intros i Hi.
  rewrite Z.ldiff_spec, Z.land_spec, Z.bits_0.
  destruct (Z.testbit 0x0f i); [|now rewrite andb_false_r].
  now rewrite andb_false_r.
Qed.

(** X13.  [ConfigurationMask] spreads the low eight bits of the mask
    over the eight 4-bit fields of a configuration register: bit 4*p of
    the result is bit p of the mask for p = 0..7, every other bit of the
    result is 0, and the bits 8 and up of the mask are ignored. *)
Theorem ConfigurationMask_spreads (mask : Z) :
  (forall p, 0 <= p < 8 ->
     Z.testbit (NativePortBase.ConfigurationMask mask) (4 * p)
     = Z.testbit mask p)
  /\ (forall j, 0 <= j -> j mod 4 <> 0 \/ 32 <= j ->
        Z.testbit (NativePortBase.ConfigurationMask mask) j = false)
  /\ NativePortBase.ConfigurationMask mask
     = NativePortBase.ConfigurationMask (Z.land mask 0xff).
Proof.
  split; [|split].
  - intros p Hp. rewrite ConfigurationMask_bits by lia.
    destruct (nibble_index p 0 ltac:(lia)) as [Hdiv Hmod].
    rewrite Z.add_0_l in Hdiv, Hmod. rewrite Hdiv, Hmod.
    destruct (Z.ltb_spec (4 * p) 32); [|lia].
    cbn. now rewrite andb_true_r.
  - intros j Hj Hor. rewrite ConfigurationMask_bits by assumption.
    destruct Hor as [Hmod|Hhigh].
    + destruct (Z.eqb_spec (j mod 4) 0); [contradiction|].
      now rewrite andb_false_r.
    + destruct (Z.ltb_spec j 32); [lia | reflexivity].
  - apply ConfigurationMask_low_byte.
Qed.

Lemma ConfigurationMask_spreads_witness :
  Z.testbit (NativePortBase.ConfigurationMask 0x1234) (4 * 5)
  = Z.testbit 0x1234 5.
Proof.
  apply (ConfigurationMask_spreads 0x1234). lia.
Defined.

(** X14.  [UnpackConfig] works field by field.  For a pin p = 0..7 and
    4-bit [configuration] and [configMask], the 4-bit field p of the
    result is the field p of [value] with the bits of [configMask]
    cleared and the bits of [configuration] set when bit p of the mask
    is set, and the field p of [value] unchanged otherwise; the result
    has no bit above bit 31. *)
Theorem UnpackConfig_fields (mask value configuration configMask p : Z) :
  0 <= p < 8 ->
  0 <= configuration < 16 ->
  0 <= configMask < 16 ->
  Z.land (Z.shiftr (NativePortBase.UnpackConfig mask value configuration
                      configMask) (4 * p)) 0x0f
  = (if Z.testbit mask p
     then Z.lor (Z.ldiff (Z.land (Z.shiftr value (4 * p)) 0x0f) configMask)
                configuration
     else Z.land (Z.shiftr value (4 * p)) 0x0f)
  /\ (forall j, 32 <= j ->
        Z.testbit (NativePortBase.UnpackConfig mask value configuration
                     configMask) j = false).
Proof.
  intros Hp Hc Hm. split.
  - now apply UnpackConfig_nibble.
  - intros j Hj. now apply UnpackConfig_bits_high.
Qed.

Lemma UnpackConfig_fields_witness :
  Z.land (Z.shiftr (NativePortBase.UnpackConfig 0x05 0x44444444
                      NativePortBase.Out 0x0f) (4 * 2)) 0x0f
  = (if Z.testbit 0x05 2
     then Z.lor (Z.ldiff (Z.land (Z.shiftr 0x44444444 (4 * 2)) 0x0f) 0x0f)
                NativePortBase.Out
     else Z.land (Z.shiftr 0x44444444 (4 * 2)) 0x0f).
Proof.
  apply (UnpackConfig_fields 0x05 0x44444444 NativePortBase.Out 0x0f 2);
    unfold NativePortBase.Out; lia.
Defined.

(** ** The configuration registers, pin by pin *)

Lemma PinConfiguration_unpacked (m1 m2 c cm p : Z) (regs regs' : GPIO.t) :
  GPIO.CRL regs' = NativePortBase.UnpackConfig m1 (GPIO.CRL regs) c cm ->
  GPIO.CRH regs' = NativePortBase.UnpackConfig m2 (GPIO.CRH regs) c cm ->
  0 <= p < 16 -> 0 <= c < 16 -> 0 <= cm < 16 ->
  PinConfiguration p regs'
  = if (if p <? 8 then Z.testbit m1 p else Z.testbit m2 (p - 8))
    then Z.lor (Z.ldiff (PinConfiguration p regs) cm) c
    else PinConfiguration p regs.
Proof.
  intros HL HH Hp Hc Hm. unfold PinConfiguration.
  destruct (Z.ltb_spec p 8).
  - rewrite HL. apply UnpackConfig_nibble; lia.
  - rewrite HH. apply UnpackConfig_nibble; lia.
Qed.

Lemma PinConfiguration_nibble p regs :
  Z.ldiff (PinConfiguration p regs) 0x0f = 0.
Proof.
  unfold PinConfiguration. destruct (p <? 8); apply ldiff_nibble.
Qed.

Lemma shiftr_8_bit mask p :
  8 <= p -> Z.testbit (Z.shiftr mask 8) (p - 8) = Z.testbit mask p.
Proof.
  intros Hp. rewrite Z.shiftr_spec by lia. f_equal. lia.
Qed.

(** X15.  [SetConfiguration(mask, configuration)] gives every pin
    selected by the mask the configuration and leaves the configuration
    of every other pin, and the registers IDR, ODR and BSRR, as they
    were.  The template [SetConfiguration<mask, configuration>()] leaves
    the same registers. *)
Theorem SetConfiguration_pins (mask configuration p : Z) (regs : GPIO.t) :
  0 <= p < 16 ->
  0 <= configuration < 16 ->
  PinConfiguration p
    (PortImplementation.SetConfiguration mask configuration regs)
  = (if Z.testbit mask p then configuration else PinConfiguration p regs)
  /\ GPIO.IDR (PortImplementation.SetConfiguration mask configuration regs)
     = GPIO.IDR regs
  /\ GPIO.ODR (PortImplementation.SetConfiguration mask configuration regs)
     = GPIO.ODR regs
  /\ GPIO.BSRR (PortImplementation.SetConfiguration mask configuration regs)
     = GPIO.BSRR regs
  /\ PortImplementation.SetConfiguration_t mask configuration regs
     = PortImplementation.SetConfiguration mask configuration regs.
Proof.
  intros Hp Hc. split; [|repeat split].
  rewrite (PinConfiguration_unpacked mask (Z.shiftr mask 8) configuration
             0x0f p regs) by (reflexivity || lia).
  rewrite PinConfiguration_nibble, Z.lor_0_l.
  destruct (Z.ltb_spec p 8); [reflexivity|].
  now rewrite shiftr_8_bit by assumption.
Qed.

Lemma SetConfiguration_pins_witness :
  PinConfiguration 9
    (PortImplementation.SetConfiguration 0x0201 NativePortBase.AltFunc
       {| GPIO.CRL := 0x44444444; GPIO.CRH := 0x44444444; GPIO.IDR := 0;
          GPIO.ODR := 0; GPIO.BSRR := 0 |})
  = (if Z.testbit 0x0201 9 then NativePortBase.AltFunc
     else PinConfiguration 9
            {| GPIO.CRL := 0x44444444; GPIO.CRH := 0x44444444; GPIO.IDR := 0;
               GPIO.ODR := 0; GPIO.BSRR := 0 |}).
Proof.
  apply (SetConfiguration_pins 0x0201 NativePortBase.AltFunc 9);
    unfold NativePortBase.AltFunc; lia.
Defined.

Lemma ConfigurationMask_pow2 pin :
  0 <= pin < 16 ->
  NativePortBase.ConfigurationMask (2 ^ pin)
  = if pin <? 8 then 2 ^ (4 * pin) else 0.
Proof.
  intros Hp.
  assert (H : pin = 0 \/ pin = 1 \/ pin = 2 \/ pin = 3 \/ pin = 4 \/ pin = 5
              \/ pin = 6 \/ pin = 7 \/ pin = 8 \/ pin = 9 \/ pin = 10
              \/ pin = 11 \/ pin = 12 \/ pin = 13 \/ pin = 14 \/ pin = 15)
    by lia.
  repeat (destruct H as [->|H]; [reflexivity|]). subst. reflexivity.
Qed.

Lemma UnpackConfig_one_pin mask value configuration p :
  NativePortBase.ConfigurationMask mask = 2 ^ (4 * p) ->
  0 <= p ->
  0 <= configuration < 2 ^ 32 ->
  NativePortBase.UnpackConfig mask value configuration 0x0f
  = Z.lor (Z.land value (not32 (u32 (Z.shiftl 0x0f (p * 4)))))
          (u32 (Z.shiftl (u32 configuration) (p * 4))).
Proof.
  intros HM Hp Hc. unfold NativePortBase.UnpackConfig. rewrite HM.
  rewrite !Z.shiftl_mul_pow2 by lia.
  rewrite (u32_small configuration) by assumption.
  now rewrite (Z.mul_comm p 4), (Z.mul_comm 15), (Z.mul_comm configuration).
Qed.

Lemma UnpackConfig_no_pin mask value configuration configMask :
  NativePortBase.ConfigurationMask mask = 0 ->
  0 <= value < 2 ^ 32 ->
  NativePortBase.UnpackConfig mask value configuration configMask = value.
Proof.
  intros HM Hv. unfold NativePortBase.UnpackConfig. rewrite HM.
  rewrite !Z.mul_0_l. change (not32 (u32 0)) with (Z.ones 32).
  change (u32 0) with 0.
  rewrite Z.lor_0_r, Z.land_ones by lia. now apply Z.mod_small.
Qed.

(** X16.  Configuring one pin by its number is configuring it by its
    mask: for a pin 0..15, a 4-bit configuration and 32-bit register
    values, [SetPinConfiguration<pin>(configuration)] leaves the
    registers as [SetConfiguration(1 << pin, configuration)] does.  For
    a pin number of 16 or more there is no [SetPinConfiguration]. *)
Theorem SetPinConfiguration_as_mask (pin configuration : Z) (regs : GPIO.t) :
  0 <= pin ->
  0 <= configuration < 16 ->
  0 <= GPIO.CRL regs < 2 ^ 32 ->
  0 <= GPIO.CRH regs < 2 ^ 32 ->
  PortImplementation.SetPinConfiguration pin configuration regs
  = if pin <? 16
    then Ok (PortImplementation.SetConfiguration (2 ^ pin) configuration regs)
    else Err IllFormed.
Proof.
  intros Hpin Hc HL HH. unfold PortImplementation.SetPinConfiguration.
  destruct (Z.ltb_spec pin 8) as [Hlow|Hhigh].
  - destruct (Z.ltb_spec pin 16); [|lia]. f_equal.
    unfold PortImplementation.SetConfiguration.
    pose proof (ConfigurationMask_pow2 pin ltac:(lia)) as HM.
    destruct (Z.ltb_spec pin 8); [|lia].
    rewrite (UnpackConfig_one_pin (2 ^ pin) _ _ pin HM) by lia.
    rewrite UnpackConfig_no_pin; [reflexivity| |exact HH].
    rewrite Z.shiftr_div_pow2 by lia.
    rewrite Z.div_small; [reflexivity|].
    split; [apply Z.pow_nonneg; lia|].
    apply Z.pow_lt_mono_r; lia.
  - destruct (Z.ltb_spec pin 16) as [Hlt|Hge]; [|reflexivity]. f_equal.
    unfold PortImplementation.SetConfiguration.
    pose proof (ConfigurationMask_pow2 pin ltac:(lia)) as HM.
    destruct (Z.ltb_spec pin 8); [lia|].
    rewrite (UnpackConfig_no_pin (2 ^ pin)) by assumption.
    assert (Hshift : Z.shiftr (2 ^ pin) 8 = 2 ^ (pin - 8)).
    { rewrite Z.shiftr_div_pow2 by lia.
      rewrite <- Z.pow_sub_r by lia. reflexivity. }
    rewrite Hshift.
    pose proof (ConfigurationMask_pow2 (pin - 8) ltac:(lia)) as HM'.
    destruct (Z.ltb_spec (pin - 8) 8); [|lia].
    cbn [GPIO.CRH PortImplementation.write_CRL].
    rewrite (UnpackConfig_one_pin (2 ^ (pin - 8)) _ _ (pin - 8) HM') by lia.
    destruct regs; reflexivity.
Qed.

Lemma SetPinConfiguration_as_mask_witness :
  PortImplementation.SetPinConfiguration 11 NativePortBase.Out
    {| GPIO.CRL := 0x44444444; GPIO.CRH := 0x44444444; GPIO.IDR := 0;
       GPIO.ODR := 0; GPIO.BSRR := 0 |}
  = if 11 <? 16
    then Ok (PortImplementation.SetConfiguration (2 ^ 11) NativePortBase.Out
               {| GPIO.CRL := 0x44444444; GPIO.CRH := 0x44444444;
                  GPIO.IDR := 0; GPIO.ODR := 0; GPIO.BSRR := 0 |})
    else Err IllFormed.
Proof.
  apply (SetPinConfiguration_as_mask 11 NativePortBase.Out);
    unfold NativePortBase.Out; cbn; lia.
Defined.

(** X17.  [SetSpeed(mask, speed)] replaces the two speed bits of every
    pin selected by the mask.  The template [SetSpeed<mask, speed>()]
    does the same for the pins 0..7, but for a pin p = 8..15 it looks at
    bit p - 8 of the mask, not at bit p: its two mask parts are both
    taken from the low byte. *)
Theorem SetSpeed_pins (mask speed p : Z) (regs : GPIO.t) :
  0 <= p < 16 ->
  0 <= speed < 4 ->
  PinConfiguration p (PortImplementation.SetSpeed mask speed regs)
  = (if Z.testbit mask p
     then Z.lor (Z.ldiff (PinConfiguration p regs) 0x03) speed
     else PinConfiguration p regs)
  /\ PinConfiguration p (PortImplementation.SetSpeed_t mask speed regs)
     = (if Z.testbit mask (if p <? 8 then p else p - 8)
        then Z.lor (Z.ldiff (PinConfiguration p regs) 0x03) speed
        else PinConfiguration p regs).
Proof.
  intros Hp Hs. split.
  - rewrite (PinConfiguration_unpacked mask (Z.shiftr mask 8) speed 0x03 p
               regs) by (reflexivity || lia).
    destruct (Z.ltb_spec p 8); [reflexivity|].
    now rewrite shiftr_8_bit by assumption.
  - rewrite (PinConfiguration_unpacked mask mask speed 0x03 p regs)
      by (reflexivity || lia).
    now destruct (p <? 8).
Qed.

Lemma SetSpeed_pins_witness :
  PinConfiguration 9
    (PortImplementation.SetSpeed_t 0x0002 NativePortBase.Fast
       {| GPIO.CRL := 0x44444444; GPIO.CRH := 0x44444444; GPIO.IDR := 0;
          GPIO.ODR := 0; GPIO.BSRR := 0 |})
  = (if Z.testbit 0x0002 (if 9 <? 8 then 9 else 9 - 8)
     then Z.lor (Z.ldiff
                   (PinConfiguration 9
                      {| GPIO.CRL := 0x44444444; GPIO.CRH := 0x44444444;
                         GPIO.IDR := 0; GPIO.ODR := 0; GPIO.BSRR := 0 |})
                   0x03) NativePortBase.Fast
     else PinConfiguration 9
            {| GPIO.CRL := 0x44444444; GPIO.CRH := 0x44444444; GPIO.IDR := 0;
               GPIO.ODR := 0; GPIO.BSRR := 0 |}).
Proof.
  pose proof (SetSpeed_pins 0x0002 NativePortBase.Fast 9
                {| GPIO.CRL := 0x44444444; GPIO.CRH := 0x44444444;
                   GPIO.IDR := 0; GPIO.ODR := 0; GPIO.BSRR := 0 |}) as H.
  destruct H as [_ H]; [lia | unfold NativePortBase.Fast; lia | exact H].
Defined.

(** X18.  The same holds for the driver type, whose field is bit 2 of
    the pin configuration: [SetDriverType(mask, driver)] selects the
    pins by the bits of the mask, the template
    [SetDriverType<mask, driver>()] selects pin p = 8..15 by bit p - 8. *)
Theorem SetDriverType_pins (mask driver p : Z) (regs : GPIO.t) :
  0 <= p < 16 ->
  0 <= driver < 16 ->
  PinConfiguration p (PortImplementation.SetDriverType mask driver regs)
  = (if Z.testbit mask p
     then Z.lor (Z.ldiff (PinConfiguration p regs) 0x04) driver
     else PinConfiguration p regs)
  /\ PinConfiguration p (PortImplementation.SetDriverType_t mask driver regs)
     = (if Z.testbit mask (if p <? 8 then p else p - 8)
        then Z.lor (Z.ldiff (PinConfiguration p regs) 0x04) driver
        else PinConfiguration p regs).
Proof.
  intros Hp Hs. split.
  - rewrite (PinConfiguration_unpacked mask (Z.shiftr mask 8) driver 0x04 p
               regs) by (reflexivity || lia).
    destruct (Z.ltb_spec p 8); [reflexivity|].
    now rewrite shiftr_8_bit by assumption.
  - rewrite (PinConfiguration_unpacked mask mask driver 0x04 p regs)
      by (reflexivity || lia).
    now destruct (p <? 8).
Qed.

Lemma SetDriverType_pins_witness :
  PinConfiguration 3
    (PortImplementation.SetDriverType 0x0008 NativePortBase.OpenDrain
       {| GPIO.CRL := 0x33333333; GPIO.CRH := 0x33333333; GPIO.IDR := 0;
          GPIO.ODR := 0; GPIO.BSRR := 0 |})
  = (if Z.testbit 0x0008 3
     then Z.lor (Z.ldiff
                   (PinConfiguration 3
                      {| GPIO.CRL := 0x33333333; GPIO.CRH := 0x33333333;
                         GPIO.IDR := 0; GPIO.ODR := 0; GPIO.BSRR := 0 |})
                   0x04) NativePortBase.OpenDrain
     else PinConfiguration 3
            {| GPIO.CRL := 0x33333333; GPIO.CRH := 0x33333333; GPIO.IDR := 0;
               GPIO.ODR := 0; GPIO.BSRR := 0 |}).
Proof.
  pose proof (SetDriverType_pins 0x0008 NativePortBase.OpenDrain 3
                {| GPIO.CRL := 0x33333333; GPIO.CRH := 0x33333333;
                   GPIO.IDR := 0; GPIO.ODR := 0; GPIO.BSRR := 0 |}) as H.
  destruct H as [H _]; [lia | unfold NativePortBase.OpenDrain; lia | exact H].
Defined.

(** X19.  The two halves of a port.  [PortImplementationL] configures
    the pins 0..7 selected by the mask and [PortImplementationH] the
    pins 8..15 selected by the mask, each leaving the other half alone.
    The template [SetConfiguration<mask, configuration>()] of the high
    half selects pin p = 8..15 by bit p - 8 of the mask. *)
Theorem SetConfiguration_halves (mask configuration p : Z) (regs : GPIO.t) :
  0 <= p < 16 ->
  0 <= configuration < 16 ->
  PinConfiguration p
    (PortImplementationL.SetConfiguration mask configuration regs)
  = (if (p <? 8) && Z.testbit mask p
     then configuration else PinConfiguration p regs)
  /\ PinConfiguration p
       (PortImplementationH.SetConfiguration mask configuration regs)
     = (if (8 <=? p) && Z.testbit mask p
        then configuration else PinConfiguration p regs)
  /\ PinConfiguration p
       (PortImplementationH.SetConfiguration_t mask configuration regs)
     = (if (8 <=? p) && Z.testbit mask (p - 8)
        then configuration else PinConfiguration p regs).
Proof.
  intros Hp Hc. unfold PinConfiguration.
  destruct (Z.ltb_spec p 8) as [Hlow|Hhigh];
    destruct (Z.leb_spec 8 p); try lia; cbn [andb].
  - split; [|split; reflexivity].
    cbn [PortImplementationL.SetConfiguration PortImplementation.write_CRL
           GPIO.CRL].
    rewrite UnpackConfig_nibble by lia.
    now rewrite ldiff_nibble, Z.lor_0_l.
  - split; [reflexivity|]. split.
    + cbn [PortImplementationH.SetConfiguration PortImplementation.write_CRH
             GPIO.CRH].
      rewrite UnpackConfig_nibble by lia.
      rewrite ldiff_nibble, Z.lor_0_l.
      now rewrite shiftr_8_bit by assumption.
    + cbn [PortImplementationH.SetConfiguration_t
             PortImplementation.write_CRH GPIO.CRH].
      change (Z.lor (Z.land (GPIO.CRH regs)
                       (not32 (u32 (NativePortBase.ConfigurationMask mask
                                    * 15))))
                (u32 (NativePortBase.ConfigurationMask mask * configuration)))
        with (NativePortBase.UnpackConfig mask (GPIO.CRH regs) configuration
                0x0f).
      rewrite UnpackConfig_nibble by lia.
      now rewrite ldiff_nibble, Z.lor_0_l.
Qed.

Lemma SetConfiguration_halves_witness :
  PinConfiguration 12
    (PortImplementationH.SetConfiguration 0x1000 NativePortBase.Out
       {| GPIO.CRL := 0x44444444; GPIO.CRH := 0x44444444; GPIO.IDR := 0;
          GPIO.ODR := 0; GPIO.BSRR := 0 |})
  = (if (8 <=? 12) && Z.testbit 0x1000 12
     then NativePortBase.Out
     else PinConfiguration 12
            {| GPIO.CRL := 0x44444444; GPIO.CRH := 0x44444444; GPIO.IDR := 0;
               GPIO.ODR := 0; GPIO.BSRR := 0 |}).
Proof.
  pose proof (SetConfiguration_halves 0x1000 NativePortBase.Out 12
                {| GPIO.CRL := 0x44444444; GPIO.CRH := 0x44444444;
                   GPIO.IDR := 0; GPIO.ODR := 0; GPIO.BSRR := 0 |}) as H.
  destruct H as [_ [H _]]; [lia | unfold NativePortBase.Out; lia | exact H].
Defined.

(** ** The data registers *)

Lemma u32_int z : u32 (int z) = u32 z.
Proof.
  unfold u32, int.
  rewrite (Z.mod_eq (z + 2 ^ 31) (2 ^ 32)) by discriminate.
  replace (z + 2 ^ 31 - 2 ^ 32 * ((z + 2 ^ 31) / 2 ^ 32) - 2 ^ 31)
    with (z + (- ((z + 2 ^ 31) / 2 ^ 32)) * 2 ^ 32) by lia.
  apply Z.mod_add. discriminate.
Qed.

Lemma land_low_high s c :
  0 <= s < 2 ^ 16 -> Z.land s (Z.shiftl c 16) = 0.
Proof.
  intros Hs. apply Z.bits_inj'. intros i Hi.
  rewrite Z.land_spec, Z.bits_0.
  destruct (Z.lt_ge_cases i 16).
  - rewrite Z.shiftl_spec_low by assumption. apply andb_false_r.
  - rewrite <- (Z.mod_small s (2 ^ 16)) by assumption.
    now rewrite Z.mod_pow2_bits_high by lia.
Qed.

Lemma shiftl_16_small c :
  0 <= c < 2 ^ 16 -> 0 <= Z.shiftl c 16 < 2 ^ 32.
Proof.
  intros Hc. rewrite Z.shiftl_mul_pow2 by lia.
  change (2 ^ 32) with (2 ^ 16 * 2 ^ 16). nia.
Qed.

(** X20.  For 16-bit masks [ClearAndSet(clearMask, setMask)] writes the
    set mask into the low half of BSRR and the clear mask into the high
    half; the template [ClearAndSet<clearMask, setMask>()] writes the
    same value, and [Set] and [Clear] are [ClearAndSet] with the other
    mask 0. *)
Theorem ClearAndSet_halves (clearMask setMask : Z) (regs : GPIO.t) :
  0 <= clearMask < 2 ^ 16 ->
  0 <= setMask < 2 ^ 16 ->
  GPIO.BSRR (PortImplementation.ClearAndSet clearMask setMask regs)
  = setMask + 2 ^ 16 * clearMask
  /\ PortImplementation.ClearAndSet_t clearMask setMask regs
     = PortImplementation.ClearAndSet clearMask setMask regs
  /\ PortImplementation.Set_ setMask regs
     = PortImplementation.ClearAndSet 0 setMask regs
  /\ PortImplementation.Clear clearMask regs
     = PortImplementation.ClearAndSet clearMask 0 regs.
Proof.
  intros Hc Hs.
  pose proof (shiftl_16_small clearMask Hc) as Hsh.
  unfold PortImplementation.ClearAndSet, PortImplementation.ClearAndSet_t,
    PortImplementation.Set_, PortImplementation.Clear.
  rewrite !u32_int, (u32_small clearMask) by lia.
  rewrite (u32_small (Z.shiftl clearMask 16)) by assumption.
  repeat split.
  - cbn [PortImplementation.write_BSRR GPIO.BSRR].
    pose proof (Z.add_lor_land setMask (Z.shiftl clearMask 16)) as Hadd.
    rewrite land_low_high in Hadd by assumption.
    rewrite Z.shiftl_mul_pow2 in * by lia. lia.
  - change (Z.shiftl 0 16) with 0. change (u32 0) with 0.
    now rewrite Z.lor_0_r.
Qed.

Lemma ClearAndSet_halves_witness :
  GPIO.BSRR
    (PortImplementation.ClearAndSet 0x8001 0x0012
       {| GPIO.CRL := 0; GPIO.CRH := 0; GPIO.IDR := 0; GPIO.ODR := 0;
          GPIO.BSRR := 0 |})
  = 0x0012 + 2 ^ 16 * 0x8001.
Proof.
  pose proof (ClearAndSet_halves 0x8001 0x0012
                {| GPIO.CRL := 0; GPIO.CRH := 0; GPIO.IDR := 0; GPIO.ODR := 0;
                   GPIO.BSRR := 0 |}) as H.
  destruct H as [H _]; [lia | lia | exact H].
Defined.

Lemma land_one_bit x n :
  0 <= n -> Z.land x (2 ^ n) = if Z.testbit x n then 2 ^ n else 0.
Proof.
  intros Hn. apply Z.bits_inj'. intros i Hi.
  rewrite Z.land_spec, Z.pow2_bits_eqb by assumption.
  destruct (Z.eqb_spec n i) as [->|Hne].
  - destruct (Z.testbit x i); [|now rewrite Z.bits_0].
    now rewrite Z.pow2_bits_true.
  - rewrite andb_false_r.
    destruct (Z.testbit x n); [|now rewrite Z.bits_0].
    now rewrite Z.pow2_bits_false.
Qed.

(** X21.  [SetPullUp(mask, mode)] gives every selected pin the
    configuration [mode & 0x08] (8 for [PullUp] and [PullDown], 0 for
    [NoPull]), leaves the configuration of the other pins alone, and
    then stores to BSRR: the mask itself, a set request, when bit 4 of
    the mode is set ([PullDown]), and the mask shifted to the high half,
    a reset request, otherwise. *)
Theorem SetPullUp_pins (mask mode p : Z) (regs : GPIO.t) :
  0 <= p < 16 ->
  PinConfiguration p (PortImplementation.SetPullUp mask mode regs)
  = (if Z.testbit mask p then Z.land mode 0x08 else PinConfiguration p regs)
  /\ GPIO.BSRR (PortImplementation.SetPullUp mask mode regs)
     = (if Z.testbit mode 4 then mask else u32 (Z.shiftl (u32 mask) 16)).
Proof.
  intros Hp.
  assert (Hcfg : 0 <= Z.land mode 0x08 < 16).
  { change 0x08 with (2 ^ 3). rewrite (land_one_bit mode 3) by lia.
    destruct (Z.testbit mode 3); cbn; lia. }
  assert (Hbit : (Z.land mode 0x10 =? 0) = negb (Z.testbit mode 4)).
  { change 0x10 with (2 ^ 4). rewrite (land_one_bit mode 4) by lia.
    now destruct (Z.testbit mode 4). }
  unfold PortImplementation.SetPullUp. rewrite Hbit.
  set (regs' := PortImplementation.write_CRH _ _).
  assert (Hpin : PinConfiguration p regs'
                 = if Z.testbit mask p then Z.land mode 0x08
                   else PinConfiguration p regs).
  { rewrite (PinConfiguration_unpacked mask (Z.shiftr mask 8)
               (Z.land mode 0x08) 0x0f p regs) by (reflexivity || lia).
    rewrite PinConfiguration_nibble, Z.lor_0_l.
    destruct (Z.ltb_spec p 8); [reflexivity|].
    now rewrite shiftr_8_bit by assumption. }
  destruct (Z.testbit mode 4); cbn [negb]; (split; [exact Hpin|]);
    reflexivity.
Qed.

Lemma SetPullUp_pins_witness :
  PinConfiguration 2
    (PortImplementation.SetPullUp 0x0004 NativePortBase.PullDown
       {| GPIO.CRL := 0x44444444; GPIO.CRH := 0x44444444; GPIO.IDR := 0;
          GPIO.ODR := 0; GPIO.BSRR := 0 |})
  = (if Z.testbit 0x0004 2 then Z.land NativePortBase.PullDown 0x08
     else PinConfiguration 2
            {| GPIO.CRL := 0x44444444; GPIO.CRH := 0x44444444; GPIO.IDR := 0;
               GPIO.ODR := 0; GPIO.BSRR := 0 |}).
Proof.
  pose proof (SetPullUp_pins 0x0004 NativePortBase.PullDown 2
                {| GPIO.CRL := 0x44444444; GPIO.CRH := 0x44444444;
                   GPIO.IDR := 0; GPIO.ODR := 0; GPIO.BSRR := 0 |}) as H.
  destruct H as [H _]; [lia | exact H].
Defined.

(** * Flash wait states *)

(** X22.  [ConfigureFrequence] chooses between 0 and 7 wait states.
    For a frequency from 1 Hz to 192 MHz it is the least number [ws]
    with frequence <= 24 MHz * (ws + 1); for every higher 32-bit
    frequency, and for the frequency 0, whose predecessor wraps around,
    it is 7. *)
Theorem WaitStates_choice (frequence : Z) :
  0 <= Flash.WaitStates frequence <= 7
  /\ (1 <= frequence <= 192000000 ->
      24000000 * Flash.WaitStates frequence < frequence
      /\ frequence <= 24000000 * (Flash.WaitStates frequence + 1))
  /\ (192000000 < frequence < 2 ^ 32 -> Flash.WaitStates frequence = 7)
  /\ Flash.WaitStates 0 = 7.
Proof.
  unfold Flash.WaitStates, Flash.MaxFlashFrequence.
  pose proof (u32_range (frequence - 1)) as Hu.
  assert (Hq : 0 <= u32 (frequence - 1) / 24000000)
    by (apply Z.div_pos; lia).
  split; [|split; [|split]].
  - destruct (Z.ltb_spec 7 (u32 (frequence - 1) / 24000000)); lia.
  - intros Hf. rewrite u32_small by lia.
    pose proof (Z.div_mod (frequence - 1) 24000000 ltac:(lia)) as Hdm.
    pose proof (Z.mod_pos_bound (frequence - 1) 24000000 ltac:(lia)) as Hm.
    assert (Hlt : (frequence - 1) / 24000000 < 8)
      by (apply Z.div_lt_upper_bound; lia).
    destruct (Z.ltb_spec 7 ((frequence - 1) / 24000000)); lia.
  - intros Hf. rewrite u32_small by lia.
    assert (Hge : 8 <= (frequence - 1) / 24000000)
      by (apply Z.div_le_lower_bound; lia).
    destruct (Z.ltb_spec 7 ((frequence - 1) / 24000000)); lia.
  - reflexivity.
Qed.

Lemma WaitStates_choice_witness :
  24000000 * Flash.WaitStates 168000000 < 168000000
  /\ 168000000 <= 24000000 * (Flash.WaitStates 168000000 + 1).
Proof.
  pose proof (WaitStates_choice 168000000) as [_ [H _]].
  apply H. lia.
Defined.

(** X23.  [ConfigureFrequence] only sets bits of FLASH->ACR: every bit
    set before the call is set after it.  So a second call does not
    replace the wait states of the first: their bits stay, and the bits
    of the new wait states are added. *)
Theorem ConfigureFrequence_keeps_bits
    (FLASH_ACR_PRFTEN FLASH_ACR_ICEN FLASH_ACR_DCEN : Z)
    (frequence frequence' ACR j : Z) :
  0 <= j ->
  (Z.testbit ACR j = true ->
   Z.testbit (Flash.ConfigureFrequence FLASH_ACR_PRFTEN FLASH_ACR_ICEN
                FLASH_ACR_DCEN frequence ACR) j = true)
  /\ (Z.testbit (Flash.WaitStates frequence) j = true ->
      Z.testbit
        (Flash.ConfigureFrequence FLASH_ACR_PRFTEN FLASH_ACR_ICEN
           FLASH_ACR_DCEN frequence'
           (Flash.ConfigureFrequence FLASH_ACR_PRFTEN FLASH_ACR_ICEN
              FLASH_ACR_DCEN frequence ACR)) j = true)
  /\ Flash.ConfigureFrequence FLASH_ACR_PRFTEN FLASH_ACR_ICEN
       FLASH_ACR_DCEN frequence'
       (Flash.ConfigureFrequence FLASH_ACR_PRFTEN FLASH_ACR_ICEN
          FLASH_ACR_DCEN frequence ACR)
     = Z.lor (Flash.ConfigureFrequence FLASH_ACR_PRFTEN FLASH_ACR_ICEN
                FLASH_ACR_DCEN frequence ACR)
             (Flash.WaitStates frequence').
Proof.
  intros Hj. unfold Flash.ConfigureFrequence. split; [|split].
  - intros Hb. rewrite Z.lor_spec, Hb. reflexivity.
  - intros Hb. rewrite !Z.lor_spec, Hb.
    now rewrite !orb_true_r.
  - apply Z.bits_inj'. intros i Hi. rewrite !Z.lor_spec.
    destruct (Z.testbit ACR i), (Z.testbit FLASH_ACR_PRFTEN i),
      (Z.testbit FLASH_ACR_ICEN i), (Z.testbit FLASH_ACR_DCEN i),
      (Z.testbit (Flash.WaitStates frequence) i),
      (Z.testbit (Flash.WaitStates frequence') i); reflexivity.
Qed.

Lemma ConfigureFrequence_keeps_bits_witness :
  Z.testbit
    (Flash.ConfigureFrequence 0x100 0x200 0x400 24000000
       (Flash.ConfigureFrequence 0x100 0x200 0x400 168000000 0)) 1 = true.
Proof.
  pose proof (ConfigureFrequence_keeps_bits 0x100 0x200 0x400
                168000000 24000000 0 1) as H.
  destruct H as [_ [H _]]; [lia | apply H; reflexivity].
Defined.
